(** * HPMA115: a shallow embedding of the serial driver in [HPMA115.py]

    The driver talks to a particulate-matter sensor over a pyserial port.
    Python byte strings are lists of integers (each element of a [bytes]
    object is an [int] in [0, 256)), the serial port is a record holding the
    bytes still to be received and a chronological trace of everything the
    driver did to the outside world, and every method is a computation in a
    small state-and-exception monad in which a raised exception keeps the
    side effects performed before it. *)

From Stdlib Require Import ZArith List Lia Bool Arith.
Import ListNotations.
Open Scope Z_scope.

(** ** Exceptions, side effects and the monad *)

(** The exception classes of the module ([CommandFailure], [ChecksumFailure],
    [SerialDataMalformed]), the built-in ones its statements can raise, and
    pyserial's own timeout exception, which [Serial.read] never raises: a
    read that times out returns the bytes received so far. *)
Inductive exn : Type :=
| CommandFailure
| ChecksumFailure
| SerialDataMalformed
| ValueError
| IndexError
| TypeError
| StructError
| SerialTimeoutException.

Inductive result (A : Type) : Type :=
| Ok (a : A)
| Raise (e : exn).
Arguments Ok {A} a.
Arguments Raise {A} e.

(** What the driver does to the outside world, in the order it does it. *)
Inductive event : Type :=
| EWrite (packet : list Z)
| ERead (size : nat) (got : list Z)
| EReset
| ESleep (ms : Z).

(** [self.ser] together with the clock: [in_waiting] holds the bytes the
    device delivers before the read timeout expires. *)
Record Serial : Type := mkSerial {
  in_waiting : list Z;
  trace : list event
}.

Definition emit (e : event) (s : Serial) : Serial :=
  mkSerial (in_waiting s) (trace s ++ [e]).

Definition M (A : Type) : Type := Serial -> result A * Serial.

Definition ret {A} (a : A) : M A := fun s => (Ok a, s).

Definition raise {A} (e : exn) : M A := fun s => (Raise e, s).

Definition bind {A B} (m : M A) (k : A -> M B) : M B :=
  fun s =>
    match m s with
    | (Ok a, s') => k a s'
    | (Raise e, s') => (Raise e, s')
    end.

Declare Scope py_scope.
Delimit Scope py_scope with py.
Notation "x <- m ;; k" := (bind m (fun x => k))
  (at level 100, m at next level, right associativity) : py_scope.
Notation "m ;;; k" := (bind m (fun _ => k))
  (at level 100, right associativity) : py_scope.
Open Scope py_scope.

(** ** The serial port and the Python primitives the driver uses *)

(** [ser.read(size)]: up to [size] bytes; fewer when the timeout expires. *)
Definition ser_read (size : nat) : M (list Z) :=
  fun s =>
    let got := firstn size (in_waiting s) in
    (Ok got, mkSerial (skipn size (in_waiting s)) (trace s ++ [ERead size got])).

(** [ser.write(packet)] *)
Definition ser_write (packet : list Z) : M unit :=
  fun s => (Ok tt, emit (EWrite packet) s).

(** [ser.reset_input_buffer()] *)
Definition reset_input_buffer : M unit :=
  fun s => (Ok tt, mkSerial [] (trace s ++ [EReset])).

(** [time.sleep(ms / 1000)] *)
Definition sleep (ms : Z) : M unit :=
  fun s => (Ok tt, emit (ESleep ms) s).

(** [b[i]] on a byte string or tuple *)
Definition index (b : list Z) (i : nat) : M Z :=
  match nth_error b i with
  | Some x => ret x
  | None => raise IndexError
  end.

Definition is_byte (v : Z) : bool := (0 <=? v) && (v <? 256).

(** [packet.append(v)] on a [bytearray] *)
Definition append (packet : list Z) (v : Z) : M (list Z) :=
  if is_byte v then ret (packet ++ [v]) else raise ValueError.

(** [sum(packet)] *)
Fixpoint py_sum (packet : list Z) : Z :=
  match packet with
  | [] => 0
  | b :: rest => b + py_sum rest
  end.

(** [int.from_bytes(b, "big")] *)
Definition from_bytes_big (b : list Z) : Z :=
  fold_left (fun acc x => acc * 256 + x) b 0.

(** The big-endian unsigned 16-bit fields of a buffer of even length. *)
Fixpoint be16 (buf : list Z) : list Z :=
  match buf with
  | hi :: lo :: rest => (hi * 256 + lo) :: be16 rest
  | _ => []
  end.

(** [struct.unpack(">H...H", buf)] with [count] fields; [buf] is [None] when
    the response carried no data. *)
Definition struct_unpack (count : nat) (buf : option (list Z)) : M (list Z) :=
  match buf with
  | None => raise TypeError
  | Some b =>
      if Nat.eqb (length b) (2 * count) then ret (be16 b) else raise StructError
  end.

(** ** Responses and samples *)

Inductive PacketState : Type := DATA | POSACK | NEGACK.

Record Response : Type := mkResponse {
  state : PacketState;
  data : option (list Z)
}.

Definition is_NEGACK (st : PacketState) : bool :=
  match st with NEGACK => true | _ => false end.

Module SampleC0.

Record t : Type := mk { PM1_0 : Z; PM2_5 : Z; PM4_0 : Z; PM10 : Z }.

(** [SampleC0.__init__] *)
Definition init (data : list Z) : M t :=
  a <- index data 0 ;;
  b <- index data 1 ;;
  c <- index data 2 ;;
  d <- index data 3 ;;
  ret (mk a b c d).

End SampleC0.

Module SampleS0.

(** An attribute is [None] while [__init__] has not assigned it. *)
Record t : Type := mk { PM2_5 : option Z; PM10 : option Z }.

(** [SampleS0.__init__] *)
Definition init (data : list Z) : M t :=
  if Nat.eqb (length data) 2 then
    a <- index data 0 ;;
    b <- index data 1 ;;
    ret (mk (Some a) (Some b))
  else if Nat.eqb (length data) 13 then
    a <- index data 1 ;;
    b <- index data 2 ;;
    ret (mk (Some a) (Some b))
  else ret (mk None None).

End SampleS0.

(** The two concrete drivers; each fixes [SampleCls]. *)
Inductive Model : Type := HPMA115C0 | HPMA115S0.

Inductive Sample : Type :=
| OfC0 (s : SampleC0.t)
| OfS0 (s : SampleS0.t).

Definition SampleCls (self : Model) (data : list Z) : M Sample :=
  match self with
  | HPMA115C0 => s <- SampleC0.init data ;; ret (OfC0 s)
  | HPMA115S0 => s <- SampleS0.init data ;; ret (OfS0 s)
  end.

(** ** The protocol engine *)

Definition _checksum (packet : list Z) : Z := (65536 - py_sum packet) mod 256.

Definition _send (command : Z) (data : option (list Z)) : M unit :=
  packet <- append [] 0x68 ;;
  packet <- match data with
            | Some d => append packet (Z.of_nat (length d) + 1)
            | None => append packet 0x01
            end ;;
  packet <- append packet command ;;
  packet <- ret (match data with Some d => packet ++ d | None => packet end) ;;
  packet <- append packet (_checksum packet) ;;
  ser_write packet.

Definition _recv : M Response :=
  header <- ser_read 2 ;;
  h0 <- index header 0 ;;
  if h0 =? 0x40 then
    h1 <- index header 1 ;;
    data <- ser_read (Z.to_nat h1) ;;
    cs_bytes <- ser_read 1 ;;
    let cs := from_bytes_big cs_bytes in
    if negb (cs =? _checksum (header ++ data)) then raise ChecksumFailure
    else ret (mkResponse DATA (Some (skipn 1 data)))
  else
    is_stream <- (if h0 =? 0x42 then h1 <- index header 1 ;; ret (h1 =? 0x4D)
                  else ret false) ;;
    if is_stream : bool then
      data <- ser_read 28 ;;
      cs_bytes <- ser_read 2 ;;
      cs_fields <- struct_unpack 1 (Some cs_bytes) ;;
      cs <- index cs_fields 0 ;;
      let calc_cs := py_sum (header ++ data) mod 65536 in
      if negb (cs =? calc_cs) then raise ChecksumFailure
      else ret (mkResponse DATA (Some (skipn 2 data)))
    else
      is_pos <- (if h0 =? 0xA5 then h1 <- index header 1 ;; ret (h1 =? 0xA5)
                 else ret false) ;;
      if is_pos : bool then ret (mkResponse POSACK None)
      else
        is_neg <- (if h0 =? 0x96 then h1 <- index header 1 ;; ret (h1 =? 0x96)
                   else ret false) ;;
        if is_neg : bool then ret (mkResponse NEGACK None)
        else reset_input_buffer ;;; raise SerialDataMalformed.

(** ** The driver *)

(** [bytes([v])] *)
Definition bytes1 (v : Z) : M (list Z) :=
  if is_byte v then ret [v] else raise ValueError.

(** [HPMA115.__init__], after the port has been opened *)
Definition __init__ : M unit :=
  _send 0x20 None ;;;
  _send 0x02 None ;;;
  sleep 200 ;;;
  reset_input_buffer.

Definition stop_measurement : M unit :=
  _send 0x02 None ;;;
  rsp <- _recv ;;
  if is_NEGACK (state rsp) then raise CommandFailure else ret tt.

Definition start_measurement : M unit :=
  _send 0x01 None ;;;
  rsp <- _recv ;;
  if is_NEGACK (state rsp) then raise CommandFailure else ret tt.

Definition sample (self : Model) : M Sample :=
  _send 0x04 None ;;;
  rsp <- _recv ;;
  if is_NEGACK (state rsp) then raise CommandFailure
  else
    fields <- struct_unpack 6 (data rsp) ;;
    SampleCls self fields.

Definition set_cust_adj_coeff (coeff : Z) : M unit :=
  if (coeff <? 30) || (coeff >? 200) then raise ValueError
  else
    payload <- bytes1 coeff ;;
    _send 0x08 (Some payload) ;;;
    rsp <- _recv ;;
    if is_NEGACK (state rsp) then raise CommandFailure else ret tt.

Definition read_cust_adj_coeff : M Z :=
  _send 0x10 None ;;;
  rsp <- _recv ;;
  if is_NEGACK (state rsp) then raise CommandFailure
  else
    match data rsp with
    | Some b => ret (from_bytes_big b)
    | None => raise TypeError
    end.

Section Autosample.

(** The consumer is a Python callable; [A] is whatever state it closes over
    (the counter [x] of the module's own [test]). *)
Context {A : Type}.
Variable callback : Sample -> A -> bool * A.
Variable self : Model.

(** The statements that follow the enabling exchange in [autosample]:
    [disable] is the body of the [if not callback(...)] branch. *)
Definition disable : M unit :=
  _send 0x20 None ;;;
  sleep 200 ;;;
  reset_input_buffer.

(** One pass through the body of [while True]; [true] stands for [break]. *)
Definition autosample_body (a : A) : M (bool * A) :=
  rsp <- _recv ;;
  if is_NEGACK (state rsp) then raise CommandFailure
  else
    fields <- struct_unpack 13 (data rsp) ;;
    smp <- SampleCls self fields ;;
    let (keep, a') := callback smp a in
    if negb keep then disable ;;; ret (true, a')
    else ret (false, a').

(** The [while True] loop; [None] when [fuel] passes were not enough. *)
Fixpoint autosample_loop (fuel : nat) (a : A) (s : Serial)
  : option (result A * Serial) :=
  match fuel with
  | O => None
  | S fuel' =>
      match autosample_body a s with
      | (Ok (true, a'), s') => Some (Ok a', s')
      | (Ok (false, a'), s') => autosample_loop fuel' a' s'
      | (Raise e, s') => Some (Raise e, s')
      end
  end.

(** The exchange that enables streaming, before the loop is entered. *)
Definition autosample_enter : M unit :=
  _send 0x40 None ;;;
  rsp <- _recv ;;
  if is_NEGACK (state rsp) then raise CommandFailure else ret tt.

(** [autosample]: every pass that does not leave the loop consumes at
    least the two header bytes, so the bytes in waiting bound the passes. *)
Definition autosample (a : A) (s : Serial) : option (result A * Serial) :=
  match autosample_enter s with
  | (Ok _, s') => autosample_loop (S (length (in_waiting s'))) a s'
  | (Raise e, s') => Some (Raise e, s')
  end.

(** The state reached after [n] passes that all went round the loop again. *)
Fixpoint passes (n : nat) (a : A) (s : Serial) : option (A * Serial) :=
  match n with
  | O => Some (a, s)
  | S n' =>
      match autosample_body a s with
      | (Ok (false, a'), s') => passes n' a' s'
      | _ => None
      end
  end.

End Autosample.

(** ** Vocabulary of the properties *)

Definition payload_of (data : option (list Z)) : list Z :=
  match data with Some d => d | None => [] end.

(** The leading byte pairs [_recv] has a branch for. *)
Definition known_header (h0 h1 : Z) : bool :=
  (h0 =? 0x40)
  || ((h0 =? 0x42) && (h1 =? 0x4D))
  || ((h0 =? 0xA5) && (h1 =? 0xA5))
  || ((h0 =? 0x96) && (h1 =? 0x96)).

(** The events of [tr'] that were appended to [tr]. *)
Definition since (tr tr' : list event) : list event := skipn (length tr) tr'.

Fixpoint count_resets (tr : list event) : nat :=
  match tr with
  | [] => O
  | EReset :: rest => S (count_resets rest)
  | _ :: rest => count_resets rest
  end.

(** The packets written, in order. *)
Fixpoint writes (tr : list event) : list (list Z) :=
  match tr with
  | [] => []
  | EWrite packet :: rest => packet :: writes rest
  | _ :: rest => writes rest
  end.

(** A read that came back with fewer bytes than it asked for. *)
Definition is_short_read (e : event) : bool :=
  match e with
  | ERead size got => Nat.ltb (length got) size
  | _ => false
  end.

(** What [_send(0x20)] puts on the wire. *)
Definition disable_frame : list Z := [0x68; 0x01; 0x20; 0x77].

Definition bytes_ok (b : list Z) : Prop := Forall (fun v => 0 <= v < 256) b.

(** [frame] with the byte at position [i] replaced by [v]. *)
Fixpoint flip (i : nat) (v : Z) (frame : list Z) : list Z :=
  match frame, i with
  | [], _ => []
  | _ :: rest, O => v :: rest
  | b :: rest, S j => b :: flip j v rest
  end.

(** A command-response data frame as the device sends it: header [0x40],
    the length of [data], [data] and the checksum [_recv] recomputes. *)
Definition response_frame (data : list Z) : list Z :=
  0x40 :: Z.of_nat (length data) :: data
  ++ [_checksum (0x40 :: Z.of_nat (length data) :: data)].

(** A streaming frame: header [0x42 0x4D], the body and the big-endian sum
    [_recv] recomputes. *)
Definition stream_frame (body : list Z) : list Z :=
  let cs := py_sum (0x42 :: 0x4D :: body) mod 65536 in
  0x42 :: 0x4D :: body ++ [cs / 256; cs mod 256].

(** [m] raises nothing outside [P]. *)
Definition raises_only {A} (P : exn -> Prop) (m : M A) : Prop :=
  forall s : Serial, match fst (m s) with Raise e => P e | Ok _ => True end.

(** The exceptions [_recv] can raise. *)
Definition recv_error (e : exn) : Prop :=
  e = ChecksumFailure \/ e = SerialDataMalformed
  \/ e = IndexError \/ e = StructError.

(** From [s] to [s']: the trace grows by events that are not writes, and
    the bytes in waiting do not grow. *)
Definition quiet_step (s s' : Serial) : Prop :=
  (exists evs, trace s' = trace s ++ evs /\ writes evs = [])
  /\ (length (in_waiting s') <= length (in_waiting s))%nat.

Definition quiet {A} (m : M A) : Prop :=
  forall s : Serial, quiet_step s (snd (m s)).

(** What [_send(0x40)] puts on the wire. *)
Definition enable_frame : list Z := [0x68; 0x01; 0x40; 0x57].

(** The frame of a command that has no payload. *)
Definition command_frame (command : Z) : list Z :=
  [0x68; 0x01; command; _checksum [0x68; 0x01; command]].

Definition is_read (e : event) : bool :=
  match e with ERead _ _ => true | _ => false end.

(** The 16-bit field at position [i] of a streaming body, after the two
    bytes [_recv] drops. *)
Definition stream_field (body : list Z) (i : nat) : Z :=
  nth i (be16 (skipn 2 body)) 0.

(** The sample the streaming loop hands to the consumer for [body]. *)
Definition stream_sample (self : Model) (body : list Z) : Sample :=
  match self with
  | HPMA115C0 =>
      OfC0 (SampleC0.mk (stream_field body 0) (stream_field body 1)
              (stream_field body 2) (stream_field body 3))
  | HPMA115S0 =>
      OfS0 (SampleS0.mk (Some (stream_field body 1)) (Some (stream_field body 2)))
  end.

(** [m] only reads, and does not raise [SerialDataMalformed]. *)
Definition only_reads {A} (m : M A) : Prop :=
  forall s : Serial,
    exists evs,
      trace (snd (m s)) = trace s ++ evs
      /\ forallb is_read evs = true
      /\ fst (m s) <> Raise SerialDataMalformed.

(** [m] only reads, except for one reset right before it raises
    [SerialDataMalformed]. *)
Definition resets_when_malformed {A} (m : M A) : Prop :=
  forall s : Serial,
    exists reads,
      forallb is_read reads = true
      /\ trace (snd (m s))
         = trace s ++ reads
           ++ match fst (m s) with
              | Raise SerialDataMalformed => [EReset]
              | _ => []
              end.

(** The three reads [_recv] makes for a streaming frame of body [body]. *)
Definition stream_reads (body : list Z) : list event :=
  let cs := py_sum (0x42 :: 0x4D :: body) mod 65536 in
  [ERead 2 [0x42; 0x4D]; ERead 28 body; ERead 2 [cs / 256; cs mod 256]].

(** The consumer's state after it has been shown the sample of [body]. *)
Definition shown {A : Type} (callback : Sample -> A -> bool * A) (self : Model)
  (x : A) (body : list Z) : A :=
  snd (callback (stream_sample self body) x).

(** * Properties *)

Example _recv_posack :
  fst (_recv (mkSerial [0xA5; 0xA5] [])) = Ok (mkResponse POSACK None).
Proof. reflexivity. Qed.

Example _send_stop :
  _send 0x02 None (mkSerial [] [])
  = (Ok tt, mkSerial [] [EWrite [0x68; 0x01; 0x02; 0x95]]).
Proof. reflexivity. Qed.

Example _send_disable :
  _send 0x20 None (mkSerial [] []) = (Ok tt, mkSerial [] [EWrite disable_frame]).
Proof. reflexivity. Qed.

Example response_frame_accepted :
  _recv (mkSerial (response_frame [0x04; 0x00; 0x37; 0x00; 0x4D]) [])
  = (Ok (mkResponse DATA (Some [0x00; 0x37; 0x00; 0x4D])),
     mkSerial [] [ERead 2 [0x40; 0x05]; ERead 5 [0x04; 0x00; 0x37; 0x00; 0x4D];
                  ERead 1 [0x33]]).
Proof. reflexivity. Qed.

(** ** Small facts about lists, traces and checksums *)

(** Symbolic runs keep integer arithmetic folded. *)
#[local] Arguments Z.add : simpl never.
#[local] Arguments Z.sub : simpl never.
#[local] Arguments Z.mul : simpl never.
#[local] Arguments Z.modulo : simpl never.
#[local] Arguments Z.div : simpl never.
#[local] Arguments Z.of_nat : simpl never.

Lemma from_bytes_big_1 (c : Z) : from_bytes_big [c] = c.
Proof. unfold from_bytes_big. cbn [fold_left]. lia. Qed.

Lemma since_app (tr evs : list event) : since tr (tr ++ evs) = evs.
Proof.
  unfold since. induction tr as [|e tr IH]; simpl; auto.
Qed.

Lemma writes_app (tr1 tr2 : list event) :
  writes (tr1 ++ tr2) = writes tr1 ++ writes tr2.
Proof.
  induction tr1 as [|e tr1 IH]; simpl; auto.
  destruct e; simpl; rewrite IH; reflexivity.
Qed.

Lemma firstn_exact {T} (l r : list T) : firstn (length l) (l ++ r) = l.
Proof. induction l as [|x l IH]; simpl; [destruct r|rewrite IH]; reflexivity. Qed.

Lemma skipn_exact {T} (l r : list T) : skipn (length l) (l ++ r) = r.
Proof. induction l as [|x l IH]; simpl; auto. Qed.

Lemma skipn_length_le {T} (n : nat) (l : list T) :
  (length (skipn n l) <= length l)%nat.
Proof.
  revert l. induction n as [|n IH]; intros [|x l]; simpl; auto.
Qed.

Lemma py_sum_app (l r : list Z) : py_sum (l ++ r) = py_sum l + py_sum r.
Proof. induction l as [|x l IH]; simpl; lia. Qed.

Lemma is_byte_iff (v : Z) : is_byte v = true <-> 0 <= v < 256.
Proof. unfold is_byte. rewrite andb_true_iff, Z.leb_le, Z.ltb_lt. tauto. Qed.

Lemma _checksum_is_byte (packet : list Z) : is_byte (_checksum packet) = true.
Proof.
  apply is_byte_iff. unfold _checksum. apply Z.mod_pos_bound. lia.
Qed.

(** ** [_send] *)

Lemma _send_frame (command : Z) (data : option (list Z)) (s : Serial) :
  is_byte command = true ->
  (length (payload_of data) <= 254)%nat ->
  let body :=
    0x68 :: (Z.of_nat (length (payload_of data)) + 1) :: command :: payload_of data in
  _send command data s = (Ok tt, emit (EWrite (body ++ [_checksum body])) s).
Proof.
  intros Hc Hlen.
  assert (Hl : is_byte (Z.of_nat (length (payload_of data)) + 1) = true)
    by (apply is_byte_iff; lia).
  unfold _send, bind, append, ret in *.
  destruct data as [d|]; simpl in *.
  - rewrite Hl, Hc. simpl. rewrite _checksum_is_byte. reflexivity.
  - rewrite Hc. simpl. rewrite _checksum_is_byte. reflexivity.
Qed.

Lemma _send_too_long (command : Z) (d : list Z) (s : Serial) :
  (255 <= length d)%nat ->
  _send command (Some d) s = (Raise ValueError, s).
Proof.
  intros Hlen.
  assert (Hl : is_byte (Z.of_nat (length d) + 1) = false).
  { unfold is_byte. apply andb_false_iff. right. apply Z.ltb_ge. lia. }
  unfold _send, bind, append, ret, raise. simpl. rewrite Hl. reflexivity.
Qed.

(** ** [_recv], branch by branch *)

(** The command-response branch on a frame that has arrived in full. *)
Lemma _recv_command_family (data : list Z) (c : Z) (rest : list Z) (tr : list event) :
  let header := [0x40; Z.of_nat (length data)] in
  _recv (mkSerial (header ++ data ++ c :: rest) tr)
  = (if c =? _checksum (header ++ data)
     then Ok (mkResponse DATA (Some (skipn 1 data)))
     else Raise ChecksumFailure,
     mkSerial rest (tr ++ [ERead 2 header; ERead (length data) data; ERead 1 [c]])).
Proof.
  unfold _recv, bind, ser_read, index, ret, raise. simpl.
  rewrite Nat2Z.id, firstn_exact, skipn_exact. simpl.
  rewrite <- !app_assoc, from_bytes_big_1. simpl.
  destruct (c =? _checksum (64 :: Z.of_nat (length data) :: data)); reflexivity.
Qed.

(** The streaming branch on a frame that has arrived in full. *)
Lemma _recv_stream_family (body : list Z) (hi lo : Z) (rest : list Z) (tr : list event) :
  length body = 28%nat ->
  let header := [0x42; 0x4D] in
  _recv (mkSerial (header ++ body ++ hi :: lo :: rest) tr)
  = (if hi * 256 + lo =? py_sum (header ++ body) mod 65536
     then Ok (mkResponse DATA (Some (skipn 2 body)))
     else Raise ChecksumFailure,
     mkSerial rest (tr ++ [ERead 2 header; ERead 28 body; ERead 2 [hi; lo]])).
Proof.
  intros Hlen.
  unfold _recv. rewrite <- Hlen.
  unfold bind, ser_read, index, ret, raise, struct_unpack. simpl.
  rewrite firstn_exact, skipn_exact. simpl.
  rewrite <- !app_assoc. simpl.
  destruct (hi * 256 + lo =? (66 + (77 + py_sum body)) mod 65536); reflexivity.
Qed.

(** The last branch: no known header. *)
Lemma _recv_unknown_header (h0 h1 : Z) (rest : list Z) (tr : list event) :
  known_header h0 h1 = false ->
  _recv (mkSerial (h0 :: h1 :: rest) tr)
  = (Raise SerialDataMalformed, mkSerial [] (tr ++ [ERead 2 [h0; h1]; EReset])).
Proof.
  unfold known_header. intros H.
  apply orb_false_iff in H as [H H96].
  apply orb_false_iff in H as [H HA5].
  apply orb_false_iff in H as [H40 H42].
  unfold _recv, bind, ser_read, index, ret, raise, reset_input_buffer. simpl.
  rewrite H40.
  destruct (h0 =? 66); simpl in *; rewrite ?H42;
    destruct (h0 =? 165); simpl in *; rewrite ?HA5;
    destruct (h0 =? 150); simpl in *; rewrite ?H96;
    simpl; rewrite <- ?app_assoc; reflexivity.
Qed.

(** ** Command frames (C2) *)

(** C2, as amended.  For every command byte and every payload of at most 254
    bytes (the no-payload case included), [_send] writes exactly the bytes
    [0x68], length, command, payload, checksum, where length is the payload
    length plus 1 (so 1 without a payload) and checksum is
    [(65536 - sum of all preceding frame bytes) mod 256]; with a payload of
    255 bytes or more the length does not fit the bytearray, [_send] raises
    [ValueError] and writes nothing. *)
Theorem send_frame_layout (command : Z) (data : option (list Z)) (s : Serial) :
  0 <= command < 256 ->
  ((length (payload_of data) <= 254)%nat ->
   exists len cs : Z,
     _send command data s
     = (Ok tt, emit (EWrite (0x68 :: len :: command :: payload_of data ++ [cs])) s)
     /\ len = Z.of_nat (length (payload_of data)) + 1
     /\ cs = (65536 - py_sum (0x68 :: len :: command :: payload_of data)) mod 256)
  /\ ((255 <= length (payload_of data))%nat ->
      _send command data s = (Raise ValueError, s)).
Proof.
  intros Hc. split; intros Hlen.
  - exists (Z.of_nat (length (payload_of data)) + 1).
    eexists. split; [|split; reflexivity].
    rewrite _send_frame; auto. apply is_byte_iff; exact Hc.
  - destruct data as [d|]; simpl in Hlen; [|lia].
    apply _send_too_long; exact Hlen.
Qed.

Lemma send_frame_layout_witness :
  (exists len cs : Z,
     _send 0x08 (Some [100]) (mkSerial [] [])
     = (Ok tt, emit (EWrite (0x68 :: len :: 0x08 :: [100] ++ [cs])) (mkSerial [] []))
     /\ len = 2 /\ cs = 0x2A)
  /\ _send 0x08 (Some (repeat 0 255)) (mkSerial [] []) = (Raise ValueError, mkSerial [] []).
Proof.
  split.
  - destruct (proj1 (send_frame_layout 0x08 (Some [100]) (mkSerial [] [])
                       ltac:(lia)) ltac:(simpl; lia)) as (len & cs & H & Hl & Hcs).
    exists len, cs. split; [exact H|]. split; [exact Hl|].
    rewrite Hcs, Hl. reflexivity.
  - apply (proj2 (send_frame_layout 0x08 (Some (repeat 0 255)) (mkSerial [] [])
                    ltac:(lia))).
    unfold payload_of. rewrite repeat_length. lia.
Defined.

(** C2 as stated fails for a payload that is too long for the length byte:
    with 255 payload bytes no frame is produced at all. *)
Lemma send_long_payload_raises :
  ~ (exists len cs : Z,
       fst (_send 0x08 (Some (repeat 0 255)) (mkSerial [] [])) = Ok tt
       /\ writes (trace (snd (_send 0x08 (Some (repeat 0 255)) (mkSerial [] []))))
          = [0x68 :: len :: 0x08 :: repeat 0 255 ++ [cs]]
       /\ len = Z.of_nat (length (repeat 0 255)) + 1)
  /\ _send 0x08 (Some (repeat 0 255)) (mkSerial [] []) = (Raise ValueError, mkSerial [] []).
Proof.
  assert (H : _send 0x08 (Some (repeat 0 255)) (mkSerial [] [])
              = (Raise ValueError, mkSerial [] []))
    by (apply _send_too_long; rewrite repeat_length; lia).
  split; [|exact H].
  intros (len & cs & Hok & _). rewrite H in Hok. discriminate Hok.
Qed.

(** ** Streaming frames (C3) *)

(** C3.  On the header [0x42 0x4D], [_recv] reads a 28-byte body and then 2
    checksum bytes, takes them as a big-endian 16-bit number, compares it
    with the plain sum of header and body modulo 65536, raises
    [ChecksumFailure] when they differ and otherwise returns a [DATA]
    response whose payload is the body without its first two bytes. *)
Theorem recv_stream_frame
  (body : list Z) (hi lo : Z) (rest : list Z) (tr : list event) :
  length body = 28%nat ->
  _recv (mkSerial (0x42 :: 0x4D :: body ++ hi :: lo :: rest) tr)
  = (if hi * 256 + lo =? py_sum (0x42 :: 0x4D :: body) mod 65536
     then Ok (mkResponse DATA (Some (skipn 2 body)))
     else Raise ChecksumFailure,
     mkSerial rest
       (tr ++ [ERead 2 [0x42; 0x4D]; ERead 28 body; ERead 2 [hi; lo]])).
Proof.
  intros Hlen. exact (_recv_stream_family body hi lo rest tr Hlen).
Qed.

Lemma recv_stream_frame_witness :
  _recv (mkSerial (0x42 :: 0x4D :: (0 :: 28 :: repeat 1 26) ++ 0 :: 0xC5 :: [0xA5; 0xA5]) [])
  = (Ok (mkResponse DATA (Some (repeat 1 26))),
     mkSerial [0xA5; 0xA5]
       [ERead 2 [0x42; 0x4D]; ERead 28 (0 :: 28 :: repeat 1 26); ERead 2 [0; 0xC5]]).
Proof.
  exact (recv_stream_frame (0 :: 28 :: repeat 1 26) 0 0xC5 [0xA5; 0xA5] [] eq_refl).
Defined.

(** ** Unknown headers (C6) *)

(** C6.  For every two header bytes that match none of the patterns [_recv]
    knows, [_recv] calls [reset_input_buffer] exactly once and then raises
    [SerialDataMalformed]; after reading the header it does nothing else:
    no further read and no write. *)
Theorem recv_unknown_header_discards
  (h0 h1 : Z) (rest : list Z) (tr : list event) :
  known_header h0 h1 = false ->
  let out := _recv (mkSerial (h0 :: h1 :: rest) tr) in
  fst out = Raise SerialDataMalformed
  /\ since tr (trace (snd out)) = [ERead 2 [h0; h1]; EReset]
  /\ count_resets (since tr (trace (snd out))) = 1%nat
  /\ in_waiting (snd out) = [].
Proof.
  intros H out. subst out. rewrite (_recv_unknown_header h0 h1 rest tr H).
  simpl. rewrite since_app. repeat split; reflexivity.
Qed.

Lemma recv_unknown_header_discards_witness :
  let out := _recv (mkSerial [0x41; 0x05; 0x04; 0x00] []) in
  fst out = Raise SerialDataMalformed
  /\ since [] (trace (snd out)) = [ERead 2 [0x41; 0x05]; EReset]
  /\ count_resets (since [] (trace (snd out))) = 1%nat
  /\ in_waiting (snd out) = [].
Proof.
  exact (recv_unknown_header_discards 0x41 0x05 [0x04; 0x00] [] eq_refl).
Defined.

(** ** The adjustment coefficient (C7) *)

Lemma set_cust_adj_coeff_rejects (coeff : Z) (s : Serial) :
  coeff < 30 \/ coeff > 200 ->
  set_cust_adj_coeff coeff s = (Raise ValueError, s).
Proof.
  intros H. unfold set_cust_adj_coeff.
  replace ((coeff <? 30) || (coeff >? 200)) with true; [reflexivity|].
  symmetry. apply orb_true_iff. rewrite Z.ltb_lt, Z.gtb_gt. lia.
Qed.

Lemma set_cust_adj_coeff_accepts (coeff : Z) (rest : list Z) (tr : list event) :
  30 <= coeff <= 200 ->
  set_cust_adj_coeff coeff (mkSerial (0xA5 :: 0xA5 :: rest) tr)
  = (Ok tt,
     mkSerial rest
       (tr ++ [EWrite [0x68; 0x02; 0x08; coeff; _checksum [0x68; 0x02; 0x08; coeff]];
               ERead 2 [0xA5; 0xA5]])).
Proof.
  intros H. unfold set_cust_adj_coeff.
  replace ((coeff <? 30) || (coeff >? 200)) with false.
  2:{ symmetry. apply orb_false_iff. rewrite Z.ltb_ge, Z.gtb_ltb, Z.ltb_ge. lia. }
  unfold bytes1. replace (is_byte coeff) with true
    by (symmetry; apply is_byte_iff; lia).
  unfold bind at 1. unfold ret at 1. unfold bind at 1.
  rewrite _send_frame; [|apply is_byte_iff; lia|simpl; lia].
  unfold emit, bind, _recv, ser_read, index, ret, raise. simpl.
  rewrite <- app_assoc. reflexivity.
Qed.

(** C7.  [set_cust_adj_coeff] with an argument outside [30, 200] raises
    [ValueError] before anything reaches the port (the port and its trace
    are unchanged); with an argument in [30, 200] it writes the frame of
    command [0x08] with the argument as its one payload byte and, the device
    answering with a positive acknowledgement, returns normally. *)
Theorem set_cust_adj_coeff_bounds (coeff : Z) (rest : list Z) (tr : list event) :
  (coeff < 30 \/ coeff > 200 ->
   forall s : Serial, set_cust_adj_coeff coeff s = (Raise ValueError, s))
  /\ (30 <= coeff <= 200 ->
      set_cust_adj_coeff coeff (mkSerial (0xA5 :: 0xA5 :: rest) tr)
      = (Ok tt,
         mkSerial rest
           (tr ++ [EWrite [0x68; 0x02; 0x08; coeff;
                           (65536 - (0x68 + 0x02 + 0x08 + coeff)) mod 256];
                   ERead 2 [0xA5; 0xA5]]))).
Proof.
  split.
  - intros H s. apply set_cust_adj_coeff_rejects; exact H.
  - intros H. rewrite set_cust_adj_coeff_accepts by exact H.
    unfold _checksum. cbn [py_sum].
    replace (104 + (2 + (8 + (coeff + 0)))) with (104 + 2 + 8 + coeff) by lia.
    reflexivity.
Qed.

Lemma set_cust_adj_coeff_bounds_witness :
  set_cust_adj_coeff 29 (mkSerial [0xA5; 0xA5] []) = (Raise ValueError, mkSerial [0xA5; 0xA5] [])
  /\ set_cust_adj_coeff 201 (mkSerial [0xA5; 0xA5] []) = (Raise ValueError, mkSerial [0xA5; 0xA5] [])
  /\ set_cust_adj_coeff 30 (mkSerial [0xA5; 0xA5] [])
     = (Ok tt, mkSerial [] [EWrite [0x68; 0x02; 0x08; 30; 0x70]; ERead 2 [0xA5; 0xA5]])
  /\ set_cust_adj_coeff 200 (mkSerial [0xA5; 0xA5] [])
     = (Ok tt, mkSerial [] [EWrite [0x68; 0x02; 0x08; 200; 0xC6]; ERead 2 [0xA5; 0xA5]]).
Proof.
  split; [|split; [|split]].
  - apply (proj1 (set_cust_adj_coeff_bounds 29 [] [])). lia.
  - apply (proj1 (set_cust_adj_coeff_bounds 201 [] [])). lia.
  - apply (proj2 (set_cust_adj_coeff_bounds 30 [] [])). lia.
  - apply (proj2 (set_cust_adj_coeff_bounds 200 [] [])). lia.
Defined.

(** ** Samples (C8, C4) *)

(** C8.  [SampleS0.__init__] goes by the number of fields and gives the same
    sample from either shape: from two fields [a, b] it sets [PM2_5 = a] and
    [PM10 = b], and from thirteen fields with [a] and [b] at positions 1 and
    2 it sets the same [PM2_5 = a] and [PM10 = b], whatever the other eleven
    fields are. *)
Theorem SampleS0_dual_mapping (a b : Z) (s : Serial) :
  SampleS0.init [a; b] s = (Ok (SampleS0.mk (Some a) (Some b)), s)
  /\ forall x0 x3 x4 x5 x6 x7 x8 x9 x10 x11 x12 : Z,
       SampleS0.init [x0; a; b; x3; x4; x5; x6; x7; x8; x9; x10; x11; x12] s
       = SampleS0.init [a; b] s.
Proof.
  split; [reflexivity | intros; reflexivity].
Qed.

(** Whatever the device answers, [sample] on the S0 driver never hands back
    a sample with an attribute set: it always unpacks six fields, and
    [SampleS0.__init__] assigns nothing for six. *)
Lemma sample_S0_never_populated (s s' : Serial) (smp : Sample) :
  sample HPMA115S0 s = (Ok smp, s') ->
  smp = OfS0 (SampleS0.mk None None).
Proof.
  unfold sample, bind. destruct (_send 4 None s) as [[[]|e] s1]; [|discriminate].
  destruct (_recv s1) as [[rsp|e] s2]; [|discriminate].
  destruct (is_NEGACK (state rsp)); [discriminate|].
  unfold struct_unpack. destruct (data rsp) as [b|]; [|discriminate].
  destruct (Nat.eqb (length b) (2 * 6)) eqn:Hlen; [|discriminate].
  apply Nat.eqb_eq in Hlen. unfold ret. simpl in Hlen.
  do 12 (destruct b as [|? b]; [discriminate Hlen|]).
  destruct b; [|discriminate Hlen].
  unfold SampleCls, SampleS0.init, bind, ret. simpl.
  intros H. inversion H. reflexivity.
Qed.

(** C4 fails on the code.  With the reply the S0 sends to command [0x04]
    (two 16-bit fields, here 55 and 77), [sample] raises [struct.error]; with
    a reply of six fields it returns a sample in which neither [PM2_5] nor
    [PM10] is set.  The two-field branch of [SampleS0.__init__] is never
    reached from [sample]. *)
Theorem sample_S0_not_from_two_fields :
  fst (sample HPMA115S0
         (mkSerial (response_frame [0x04; 0x00; 0x37; 0x00; 0x4D]) []))
  = Raise StructError
  /\ fst (sample HPMA115S0
            (mkSerial (response_frame [0x04; 0; 10; 0; 55; 0; 30; 0; 77; 0; 0; 0; 0]) []))
     = Ok (OfS0 (SampleS0.mk None None)).
Proof.
  split; reflexivity.
Qed.

(** ** Corrupted frames (C9) *)

Lemma flip_length (i : nat) (v : Z) (l : list Z) : length (flip i v l) = length l.
Proof.
  revert i. induction l as [|b l IH]; intros [|i]; simpl; auto.
Qed.

Lemma flip_app_l (i : nat) (v : Z) (l r : list Z) :
  (i < length l)%nat -> flip i v (l ++ r) = flip i v l ++ r.
Proof.
  revert i. induction l as [|b l IH]; intros [|i] H; simpl in *; try lia; auto.
  rewrite IH by lia. reflexivity.
Qed.

Lemma flip_app_r (j : nat) (v : Z) (l r : list Z) :
  flip (length l + j) v (l ++ r) = l ++ flip j v r.
Proof.
  induction l as [|b l IH]; simpl; [reflexivity|].
  rewrite IH. reflexivity.
Qed.

Lemma py_sum_flip (i : nat) (v old : Z) (l : list Z) :
  nth_error l i = Some old -> py_sum (flip i v l) = py_sum l - old + v.
Proof.
  revert i. induction l as [|b l IH]; intros [|i] H; simpl in *; try discriminate.
  - inversion H. lia.
  - rewrite (IH i H). lia.
Qed.

Lemma bytes_ok_nth (i : nat) (old : Z) (l : list Z) :
  bytes_ok l -> nth_error l i = Some old -> 0 <= old < 256.
Proof.
  intros Hl H. apply nth_error_In in H.
  unfold bytes_ok in Hl. rewrite Forall_forall in Hl. apply Hl; exact H.
Qed.

Lemma nth_error_app_l (i : nat) (l r : list Z) :
  (i < length l)%nat -> nth_error (l ++ r) i = nth_error l i.
Proof.
  revert i. induction l as [|b l IH]; intros [|i] H; simpl in *; try lia; auto.
  apply IH. lia.
Qed.

Lemma nth_error_app_r (j : nat) (l r : list Z) :
  nth_error (l ++ r) (length l + j) = nth_error r j.
Proof. induction l as [|b l IH]; simpl; auto. Qed.

(** A non-zero change smaller than the modulus changes the residue. *)
Lemma mod_shift_neq (a d m : Z) :
  0 < m -> d <> 0 -> - m < d < m -> (a + d) mod m <> a mod m.
Proof.
  intros Hm Hd Hb Heq.
  pose proof (Z.div_mod (a + d) m ltac:(lia)) as E1.
  pose proof (Z.div_mod a m ltac:(lia)) as E2.
  rewrite Heq in E1.
  assert (E : d = m * ((a + d) / m - a / m)) by lia.
  assert (Hq : (a + d) / m - a / m = 0) by nia.
  rewrite Hq in E. lia.
Qed.

Lemma response_frame_validates (data rest : list Z) (tr : list event) :
  fst (_recv (mkSerial (response_frame data ++ rest) tr))
  = Ok (mkResponse DATA (Some (skipn 1 data))).
Proof.
  unfold response_frame.
  change (0x40 :: Z.of_nat (length data) :: data ++ [?c])
    with ([0x40; Z.of_nat (length data)] ++ data ++ [c]).
  rewrite <- !app_assoc. cbn [app].
  pose proof (_recv_command_family data
                (_checksum (0x40 :: Z.of_nat (length data) :: data)) rest tr) as H.
  cbn [app] in H. rewrite H. cbn [fst app]. rewrite Z.eqb_refl. reflexivity.
Qed.

Lemma stream_frame_validates (body rest : list Z) (tr : list event) :
  length body = 28%nat ->
  fst (_recv (mkSerial (stream_frame body ++ rest) tr))
  = Ok (mkResponse DATA (Some (skipn 2 body))).
Proof.
  intros Hlen. unfold stream_frame. cbv zeta.
  set (cs := py_sum (0x42 :: 0x4D :: body) mod 65536).
  pose proof (_recv_stream_family body (cs / 256) (cs mod 256) rest tr Hlen) as H.
  cbn [app] in H. cbn [app]. rewrite <- app_assoc. cbn [app].
  rewrite H. cbn [fst].
  replace (cs / 256 * 256 + cs mod 256) with cs
    by (pose proof (Z.div_mod cs 256 ltac:(lia)); lia).
  subst cs. rewrite Z.eqb_refl. reflexivity.
Qed.

Lemma flipped_response_frame
  (j : nat) (v : Z) (data rest : list Z) (tr : list event) :
  bytes_ok data -> 0 <= v < 256 -> (j <= length data)%nat ->
  let n := Z.of_nat (length data) in
  let cs := _checksum (0x40 :: n :: data) in
  nth_error (data ++ [cs]) j <> Some v ->
  fst (_recv (mkSerial (0x40 :: n :: flip j v (data ++ [cs]) ++ rest) tr))
  = Raise ChecksumFailure.
Proof.
  intros Hdata Hv Hj n cs Hne.
  destruct (lt_dec j (length data)) as [Hlt|Hge].
  - rewrite flip_app_l by exact Hlt.
    rewrite nth_error_app_l in Hne by exact Hlt.
    destruct (nth_error data j) as [old|] eqn:E;
      [|apply nth_error_None in E; lia].
    pose proof (bytes_ok_nth j old data Hdata E) as Hold.
    pose proof (_recv_command_family (flip j v data) cs rest tr) as H.
    rewrite flip_length in H. cbn [app] in H.
    rewrite <- app_assoc. cbn [app]. fold n in H. rewrite H. cbn [fst].
    replace (cs =? _checksum (64 :: n :: flip j v data)) with false; [reflexivity|].
    symmetry. apply Z.eqb_neq. subst cs. unfold _checksum. cbn [py_sum].
    rewrite (py_sum_flip j v old data E).
    intros Heq.
    apply (mod_shift_neq (65536 - (64 + (n + py_sum data))) (old - v) 256);
      [lia| |lia|].
    + intros Hz. apply Hne. f_equal. lia.
    + rewrite Heq. f_equal. lia.
  - assert (Hj' : j = (length data + 0)%nat) by lia.
    rewrite Hj' in *. rewrite flip_app_r. rewrite nth_error_app_r in Hne.
    cbn [flip nth_error] in *.
    pose proof (_recv_command_family data v rest tr) as H.
    cbn [app] in H. rewrite <- app_assoc. cbn [app]. fold n in H. rewrite H.
    cbn [fst].
    replace (v =? _checksum (64 :: n :: data)) with false; [reflexivity|].
    symmetry. apply Z.eqb_neq. intros Heq. apply Hne. fold cs in Heq.
    rewrite Heq. reflexivity.
Qed.

Lemma flipped_stream_frame
  (j : nat) (v : Z) (body rest : list Z) (tr : list event) :
  bytes_ok body -> length body = 28%nat -> 0 <= v < 256 -> (j < 30)%nat ->
  let cs := py_sum (0x42 :: 0x4D :: body) mod 65536 in
  nth_error (body ++ [cs / 256; cs mod 256]) j <> Some v ->
  fst (_recv (mkSerial (0x42 :: 0x4D :: flip j v (body ++ [cs / 256; cs mod 256]) ++ rest) tr))
  = Raise ChecksumFailure.
Proof.
  intros Hbody Hlen Hv Hj cs Hne.
  assert (Hcs : cs / 256 * 256 + cs mod 256 = cs)
    by (pose proof (Z.div_mod cs 256 ltac:(lia)); lia).
  destruct (lt_dec j (length body)) as [Hlt|Hge].
  - rewrite flip_app_l by exact Hlt.
    rewrite nth_error_app_l in Hne by exact Hlt.
    destruct (nth_error body j) as [old|] eqn:E;
      [|apply nth_error_None in E; lia].
    pose proof (bytes_ok_nth j old body Hbody E) as Hold.
    pose proof (_recv_stream_family (flip j v body) (cs / 256) (cs mod 256) rest tr) as H.
    rewrite flip_length in H. specialize (H Hlen). cbn [app] in H.
    rewrite <- app_assoc. cbn [app]. rewrite H. cbn [fst]. rewrite Hcs.
    replace (cs =? py_sum (66 :: 77 :: flip j v body) mod 65536) with false;
      [reflexivity|].
    symmetry. apply Z.eqb_neq. subst cs. cbn [py_sum].
    rewrite (py_sum_flip j v old body E).
    intros Heq.
    apply (mod_shift_neq (66 + (77 + py_sum body)) (v - old) 65536);
      [lia| |lia|].
    + intros Hz. apply Hne. f_equal. lia.
    + rewrite Heq. f_equal. lia.
  - assert (Hj' : j = (length body + (j - 28))%nat) by lia.
    rewrite Hj' in *. rewrite flip_app_r. rewrite nth_error_app_r in Hne.
    assert (Hcase : (j - 28 = 0 \/ j - 28 = 1)%nat) by lia.
    destruct Hcase as [E|E]; rewrite E in *; cbn [flip nth_error] in *.
    + pose proof (_recv_stream_family body v (cs mod 256) rest tr Hlen) as H.
      cbn [app] in H. rewrite <- app_assoc. cbn [app]. rewrite H. cbn [fst].
      fold cs.
      replace (v * 256 + cs mod 256 =? cs) with false; [reflexivity|].
      symmetry. apply Z.eqb_neq. intros Heq. apply Hne. f_equal. lia.
    + pose proof (_recv_stream_family body (cs / 256) v rest tr Hlen) as H.
      cbn [app] in H. rewrite <- app_assoc. cbn [app]. rewrite H. cbn [fst].
      fold cs.
      replace (cs / 256 * 256 + v =? cs) with false; [reflexivity|].
      symmetry. apply Z.eqb_neq. intros Heq. apply Hne. f_equal. lia.
Qed.

(** C9, as amended.  Take a command-response data frame or a streaming data
    frame that arrives in full and validates.  Replacing any single byte
    after the two header bytes (a payload or body byte, or a checksum byte)
    by a different byte makes [_recv] raise [ChecksumFailure].  The two
    header bytes (for the command family: the [0x40] marker and the length)
    are left out: they select the branch and the number of bytes read
    before any checksum is looked at. *)
Theorem flipped_frame_raises_checksum_failure
  (i : nat) (v : Z) (rest : list Z) (tr : list event) :
  0 <= v < 256 -> (2 <= i)%nat ->
  (forall data : list Z,
     bytes_ok data -> (length data <= 255)%nat ->
     (i < length (response_frame data))%nat ->
     nth_error (response_frame data) i <> Some v ->
     fst (_recv (mkSerial (flip i v (response_frame data) ++ rest) tr))
     = Raise ChecksumFailure)
  /\ (forall body : list Z,
        bytes_ok body -> length body = 28%nat ->
        (i < length (stream_frame body))%nat ->
        nth_error (stream_frame body) i <> Some v ->
        fst (_recv (mkSerial (flip i v (stream_frame body) ++ rest) tr))
        = Raise ChecksumFailure).
Proof.
  intros Hv Hi. destruct i as [|[|j]]; try lia. split.
  - intros data Hdata _ Hlt Hne.
    unfold response_frame in *. cbn [flip nth_error] in *.
    cbn [length] in Hlt. rewrite length_app in Hlt. cbn [length] in Hlt.
    apply flipped_response_frame; auto. lia.
  - intros body Hbody Hlen Hlt Hne.
    unfold stream_frame in *. cbv zeta in *. cbn [flip nth_error] in *.
    cbn [length] in Hlt. rewrite length_app in Hlt. cbn [length] in Hlt.
    apply flipped_stream_frame; auto. lia.
Qed.

Lemma flipped_frame_raises_checksum_failure_witness :
  fst (_recv (mkSerial (flip 3 1 (response_frame [0x04; 0x00; 0x37; 0x00; 0x4D]) ++ []) []))
  = Raise ChecksumFailure
  /\ fst (_recv (mkSerial (flip 3 1 (stream_frame (0 :: 28 :: repeat 1 26)) ++ []) []))
     = Raise ChecksumFailure.
Proof.
  destruct (flipped_frame_raises_checksum_failure 3 1 [] []
              ltac:(lia) ltac:(lia)) as [Hcmd Hstream].
  split.
  - apply Hcmd.
    + repeat constructor; lia.
    + vm_compute; lia.
    + vm_compute; lia.
    + vm_compute; discriminate.
  - apply Hstream.
    + repeat constructor; lia.
    + reflexivity.
    + vm_compute; lia.
    + vm_compute; discriminate.
Defined.

(** C9 as stated fails on the header bytes.  The frame [40 02 00 BF FF]
    validates; with its first byte replaced by [0x41] [_recv] raises
    [SerialDataMalformed], and with its length byte replaced by [0x01] the
    shorter frame [40 01 00 BF] validates and is returned as data.  A
    streaming frame whose second header byte is replaced is reported as
    malformed too. *)
Lemma flipped_header_is_not_checksum_failure :
  response_frame [0x00; 0xBF] = [0x40; 0x02; 0x00; 0xBF; 0xFF]
  /\ fst (_recv (mkSerial (response_frame [0x00; 0xBF]) []))
     = Ok (mkResponse DATA (Some [0xBF]))
  /\ fst (_recv (mkSerial (flip 0 0x41 (response_frame [0x00; 0xBF])) []))
     = Raise SerialDataMalformed
  /\ fst (_recv (mkSerial (flip 1 0x01 (response_frame [0x00; 0xBF])) []))
     = Ok (mkResponse DATA (Some []))
  /\ fst (_recv (mkSerial (stream_frame (0 :: 28 :: repeat 1 26)) []))
     = Ok (mkResponse DATA (Some (repeat 1 26)))
  /\ fst (_recv (mkSerial (flip 1 0x4C (stream_frame (0 :: 28 :: repeat 1 26))) []))
     = Raise SerialDataMalformed.
Proof.
  repeat split; vm_compute; reflexivity.
Qed.

(** ** Short reads (C10) *)

Lemma raises_only_ret {A} (P : exn -> Prop) (a : A) : raises_only P (ret a).
Proof. intros s. exact I. Qed.

Lemma raises_only_raise {A} (P : exn -> Prop) (e : exn) :
  P e -> raises_only P (@raise A e).
Proof. intros H s. exact H. Qed.

Lemma raises_only_bind {A B} (P : exn -> Prop) (m : M A) (k : A -> M B) :
  raises_only P m -> (forall a, raises_only P (k a)) -> raises_only P (bind m k).
Proof.
  intros Hm Hk s. unfold bind. specialize (Hm s).
  destruct (m s) as [[a|e] s']; simpl in *; [apply Hk | exact Hm].
Qed.

Lemma raises_only_ser_read (P : exn -> Prop) (size : nat) :
  raises_only P (ser_read size).
Proof. intros s. exact I. Qed.

Lemma raises_only_reset (P : exn -> Prop) : raises_only P reset_input_buffer.
Proof. intros s. exact I. Qed.

Lemma raises_only_index (P : exn -> Prop) (b : list Z) (i : nat) :
  P IndexError -> raises_only P (index b i).
Proof.
  intros H. unfold index. destruct (nth_error b i);
    [apply raises_only_ret | apply raises_only_raise; exact H].
Qed.

Lemma raises_only_struct_unpack (P : exn -> Prop) (count : nat) (b : list Z) :
  P StructError -> raises_only P (struct_unpack count (Some b)).
Proof.
  intros H. unfold struct_unpack. destruct (Nat.eqb (length b) (2 * count));
    [apply raises_only_ret | apply raises_only_raise; exact H].
Qed.

Ltac raises_step :=
  first
    [ apply raises_only_ret
    | apply raises_only_raise; unfold recv_error; tauto
    | apply raises_only_ser_read
    | apply raises_only_reset
    | apply raises_only_index; unfold recv_error; tauto
    | apply raises_only_struct_unpack; unfold recv_error; tauto
    | apply raises_only_bind; [|intros ?]
    | match goal with
      | |- raises_only _ (if ?c then _ else _) => destruct c
      end ].

Lemma _recv_raises_only : raises_only recv_error _recv.
Proof. unfold _recv. repeat raises_step. Qed.

Lemma _recv_never_times_out (s : Serial) :
  fst (_recv s) <> Raise SerialTimeoutException.
Proof.
  intros H. pose proof (_recv_raises_only s) as Hr. rewrite H in Hr.
  unfold recv_error in Hr. intuition discriminate.
Qed.

Lemma existsb_last {T} (f : T -> bool) (l : list T) (x : T) :
  f x = true -> existsb f (l ++ [x]) = true.
Proof.
  intros H. rewrite existsb_app. simpl. rewrite H. apply orb_true_iff.
  right. reflexivity.
Qed.

(** Nothing arrives at all: the first look at the header fails. *)
Lemma _recv_on_silence (tr : list event) :
  _recv (mkSerial [] tr) = (Raise IndexError, mkSerial [] (tr ++ [ERead 2 []])).
Proof. reflexivity. Qed.

(** The command-response branch when the device stops before the checksum. *)
Lemma _recv_command_family_short (h1 : Z) (data : list Z) (tr : list event) :
  (length data <= Z.to_nat h1)%nat ->
  _recv (mkSerial (0x40 :: h1 :: data) tr)
  = (if 0 =? _checksum (0x40 :: h1 :: data)
     then Ok (mkResponse DATA (Some (skipn 1 data)))
     else Raise ChecksumFailure,
     mkSerial []
       (tr ++ [ERead 2 [0x40; h1]; ERead (Z.to_nat h1) data; ERead 1 []])).
Proof.
  intros Hlen.
  unfold _recv, bind, ser_read, index, ret, raise. simpl.
  rewrite firstn_all2, skipn_all2 by exact Hlen. simpl.
  rewrite <- !app_assoc. simpl.
  change (from_bytes_big []) with 0.
  destruct (_checksum (64 :: h1 :: data)); reflexivity.
Qed.

(** The streaming branch when fewer than 30 bytes follow the header. *)
Lemma _recv_stream_family_short (tail : list Z) (tr : list event) :
  (length tail < 30)%nat ->
  _recv (mkSerial (0x42 :: 0x4D :: tail) tr)
  = (Raise StructError,
     mkSerial []
       (tr ++ [ERead 2 [0x42; 0x4D]; ERead 28 (firstn 28 tail);
               ERead 2 (firstn 2 (skipn 28 tail))])).
Proof.
  intros Hlen.
  assert (Hck : (length (firstn 2 (skipn 28 tail)) < 2)%nat).
  { rewrite length_firstn, length_skipn. lia. }
  assert (Hrest : skipn 2 (skipn 28 tail) = []).
  { apply skipn_all2. rewrite length_skipn. lia. }
  unfold _recv, bind, ser_read, index, ret, raise, struct_unpack.
  cbn [in_waiting trace nth_error Z.eqb Pos.eqb].
  change (firstn 2 (0x42 :: 0x4D :: tail)) with [0x42; 0x4D].
  change (skipn 2 (0x42 :: 0x4D :: tail)) with tail.
  cbn [in_waiting trace nth_error Z.eqb Pos.eqb].
  rewrite Hrest.
  replace (Nat.eqb (length (firstn 2 (skipn 28 tail))) (2 * 1)) with false
    by (symmetry; apply Nat.eqb_neq; change (2 * 1)%nat with 2%nat; lia).
  rewrite <- !app_assoc. reflexivity.
Qed.

(** C10, as amended.  A read that comes back short is never reported as a
    timeout: [_recv] raises no timeout exception on any input and goes on
    with the bytes it got.  When nothing arrives, the look at the header
    raises [IndexError]; when a command-response frame stops before its
    checksum, the bytes that did arrive are the data and the missing
    checksum counts as 0, so the frame is returned as data if the
    recomputed checksum is 0 and rejected with [ChecksumFailure] otherwise;
    when a streaming frame stops before its checksum is complete,
    unpacking the checksum raises [struct.error]. *)
Theorem short_read_raises_no_timeout (tr : list event) :
  (forall s : Serial, fst (_recv s) <> Raise SerialTimeoutException)
  /\ (let out := _recv (mkSerial [] tr) in
      fst out = Raise IndexError
      /\ existsb is_short_read (since tr (trace (snd out))) = true)
  /\ (forall (h1 : Z) (data : list Z),
        (length data <= Z.to_nat h1)%nat ->
        let out := _recv (mkSerial (0x40 :: h1 :: data) tr) in
        fst out = (if 0 =? _checksum (0x40 :: h1 :: data)
                   then Ok (mkResponse DATA (Some (skipn 1 data)))
                   else Raise ChecksumFailure)
        /\ existsb is_short_read (since tr (trace (snd out))) = true)
  /\ (forall tail : list Z,
        (length tail < 30)%nat ->
        let out := _recv (mkSerial (0x42 :: 0x4D :: tail) tr) in
        fst out = Raise StructError
        /\ existsb is_short_read (since tr (trace (snd out))) = true).
Proof.
  split; [exact _recv_never_times_out|]. split; [|split].
  - cbv zeta. rewrite _recv_on_silence. cbn [fst snd trace].
    rewrite since_app. split; reflexivity.
  - intros h1 data Hlen. cbv zeta.
    rewrite (_recv_command_family_short h1 data tr Hlen). cbn [fst snd trace].
    rewrite since_app. split; [reflexivity|].
    apply (existsb_last is_short_read [_; _]). reflexivity.
  - intros tail Hlen. cbv zeta.
    rewrite (_recv_stream_family_short tail tr Hlen). cbn [fst snd trace].
    rewrite since_app. split; [reflexivity|].
    apply (existsb_last is_short_read [_; _]).
    unfold is_short_read. apply Nat.ltb_lt.
    rewrite length_firstn, length_skipn. lia.
Qed.

Lemma short_read_raises_no_timeout_witness :
  (let out := _recv (mkSerial [0x40; 0x03; 0x00; 0xBD] []) in
   fst out = Ok (mkResponse DATA (Some [0xBD]))
   /\ existsb is_short_read (since [] (trace (snd out))) = true)
  /\ (let out := _recv (mkSerial [0x42; 0x4D; 0x00; 0x1C] []) in
      fst out = Raise StructError
      /\ existsb is_short_read (since [] (trace (snd out))) = true).
Proof.
  destruct (short_read_raises_no_timeout []) as (_ & _ & Hcmd & Hstream).
  split.
  - apply (Hcmd 0x03 [0x00; 0xBD]). vm_compute; lia.
  - apply (Hstream [0x00; 0x1C]). vm_compute; lia.
Defined.

(** C10 as stated fails: the device sends [40 03 00 BD] and stops.  The
    read of the three data bytes comes back with two, the read of the
    checksum with none, and [_recv] returns the two bytes as a valid data
    response; when nothing at all arrives, the error is [IndexError]. *)
Lemma short_read_taken_as_data :
  (let out := _recv (mkSerial [0x40; 0x03; 0x00; 0xBD] []) in
   trace (snd out)
   = [ERead 2 [0x40; 0x03]; ERead 3 [0x00; 0xBD]; ERead 1 []]
   /\ existsb is_short_read (trace (snd out)) = true
   /\ fst out = Ok (mkResponse DATA (Some [0xBD]))
   /\ fst out <> Raise SerialTimeoutException)
  /\ (let out := _recv (mkSerial [] []) in
      existsb is_short_read (trace (snd out)) = true
      /\ fst out = Raise IndexError
      /\ fst out <> Raise SerialTimeoutException).
Proof.
  split; cbv zeta; repeat split; try reflexivity; vm_compute; discriminate.
Qed.

(** ** What a computation may do to the port *)

Lemma quiet_step_refl (s : Serial) : quiet_step s s.
Proof.
  split; [exists []; rewrite app_nil_r; auto | lia].
Qed.

Lemma quiet_step_trans (s1 s2 s3 : Serial) :
  quiet_step s1 s2 -> quiet_step s2 s3 -> quiet_step s1 s3.
Proof.
  intros [(e1 & T1 & W1) L1] [(e2 & T2 & W2) L2]. split; [|lia].
  exists (e1 ++ e2). rewrite T2, T1, app_assoc, writes_app, W1, W2. auto.
Qed.

Lemma quiet_ret {A} (a : A) : quiet (ret a).
Proof. intros s. apply quiet_step_refl. Qed.

Lemma quiet_raise {A} (e : exn) : quiet (@raise A e).
Proof. intros s. apply quiet_step_refl. Qed.

Lemma quiet_bind {A B} (m : M A) (k : A -> M B) :
  quiet m -> (forall a, quiet (k a)) -> quiet (bind m k).
Proof.
  intros Hm Hk s. unfold bind. specialize (Hm s).
  destruct (m s) as [[a|e] s']; simpl in *; [|exact Hm].
  eapply quiet_step_trans; [exact Hm | apply Hk].
Qed.

Lemma quiet_ser_read (size : nat) : quiet (ser_read size).
Proof.
  intros s. split; simpl.
  - eexists. split; [reflexivity|reflexivity].
  - apply skipn_length_le.
Qed.

Lemma quiet_reset : quiet reset_input_buffer.
Proof.
  intros s. split; simpl.
  - eexists. split; [reflexivity|reflexivity].
  - lia.
Qed.

Lemma quiet_index (b : list Z) (i : nat) : quiet (index b i).
Proof.
  unfold index. destruct (nth_error b i); [apply quiet_ret | apply quiet_raise].
Qed.

Lemma quiet_struct_unpack (count : nat) (buf : option (list Z)) :
  quiet (struct_unpack count buf).
Proof.
  unfold struct_unpack. destruct buf as [b|]; [|apply quiet_raise].
  destruct (Nat.eqb (length b) (2 * count)); [apply quiet_ret | apply quiet_raise].
Qed.

Ltac quiet_step_tac :=
  first
    [ apply quiet_ret
    | apply quiet_raise
    | apply quiet_ser_read
    | apply quiet_reset
    | apply quiet_index
    | apply quiet_struct_unpack
    | apply quiet_bind; [|intros ?]
    | match goal with
      | |- quiet (if ?c then _ else _) => destruct c
      end ].

Lemma quiet_SampleCls (self : Model) (fields : list Z) :
  quiet (SampleCls self fields).
Proof.
  destruct self; unfold SampleCls, SampleC0.init, SampleS0.init;
    repeat quiet_step_tac.
Qed.

Lemma quiet__recv : quiet _recv.
Proof. unfold _recv. repeat quiet_step_tac. Qed.

(** A response is only returned after both header bytes were there. *)
Lemma _recv_ok_consumes (s s' : Serial) (rsp : Response) :
  _recv s = (Ok rsp, s') ->
  (length (in_waiting s') + 2 <= length (in_waiting s))%nat.
Proof.
  destruct s as [inw tr]. destruct inw as [|h0 [|h1 rest]].
  - rewrite _recv_on_silence. discriminate.
  - unfold _recv, bind, ser_read, index, ret, raise, reset_input_buffer. simpl.
    destruct (h0 =? 64); [discriminate|].
    destruct (h0 =? 66); simpl; [discriminate|].
    destruct (h0 =? 165); simpl; [discriminate|].
    destruct (h0 =? 150); simpl; discriminate.
  - unfold _recv. unfold bind at 1. cbn [ser_read in_waiting trace firstn skipn].
    match goal with
    | |- ?k ?s1 = _ -> _ =>
        assert (Hk : quiet k) by (repeat quiet_step_tac);
        intros H; specialize (Hk s1); rewrite H in Hk
    end.
    destruct Hk as [_ Hk]. simpl in *. lia.
Qed.

(** ** The streaming loop (C1, C5) *)

(** A negative acknowledgement is returned for the two bytes [96 96] and
    nothing else, and reading them is all [_recv] does. *)
Lemma _recv_negack_inv (s s1 : Serial) (rsp : Response) :
  _recv s = (Ok rsp, s1) -> state rsp = NEGACK ->
  exists rest,
    in_waiting s = 0x96 :: 0x96 :: rest
    /\ s1 = mkSerial rest (trace s ++ [ERead 2 [0x96; 0x96]]).
Proof.
  destruct s as [inw tr]. destruct inw as [|h0 [|h1 rest]].
  - rewrite _recv_on_silence. discriminate.
  - unfold _recv, bind, ser_read, index, ret, raise, reset_input_buffer. simpl.
    destruct (h0 =? 64); [discriminate|].
    destruct (h0 =? 66); simpl; [discriminate|].
    destruct (h0 =? 165); simpl; [discriminate|].
    destruct (h0 =? 150); simpl; discriminate.
  - unfold _recv, bind, ser_read, index, ret, raise, struct_unpack,
      reset_input_buffer.
    cbn -[firstn skipn py_sum _checksum from_bytes_big be16 Nat.eqb Nat.mul].
    change (firstn 2 (h0 :: h1 :: rest)) with [h0; h1].
    change (skipn 2 (h0 :: h1 :: rest)) with rest.
    cbn -[firstn skipn py_sum _checksum from_bytes_big be16 Nat.eqb Nat.mul].
    destruct (h0 =? 64).
    { match goal with |- context [if ?c then _ else _] => destruct c end;
        intros H Hn; inversion H; subst; discriminate Hn. }
    destruct (h0 =? 66) eqn:E66;
      cbn -[firstn skipn py_sum _checksum from_bytes_big be16 Nat.eqb Nat.mul].
    { destruct (h1 =? 77).
      - destruct (Nat.eqb _ _);
          cbn -[firstn skipn py_sum _checksum from_bytes_big be16 Nat.eqb Nat.mul];
          [|discriminate].
        destruct (be16 _);
          cbn -[firstn skipn py_sum _checksum from_bytes_big be16 Nat.eqb Nat.mul];
          [discriminate|].
        match goal with |- context [if ?c then _ else _] => destruct c end;
          intros H Hn; inversion H; subst; discriminate Hn.
      - assert (h0 = 66) by (apply Z.eqb_eq; exact E66). subst h0.
        cbn -[firstn skipn py_sum _checksum from_bytes_big be16 Nat.eqb Nat.mul].
        discriminate. }
    destruct (h0 =? 165) eqn:EA5;
      cbn -[firstn skipn py_sum _checksum from_bytes_big be16 Nat.eqb Nat.mul].
    { destruct (h1 =? 165).
      - intros H Hn; inversion H; subst; discriminate Hn.
      - assert (h0 = 165) by (apply Z.eqb_eq; exact EA5). subst h0.
        cbn. discriminate. }
    destruct (h0 =? 150) eqn:E96;
      cbn -[firstn skipn py_sum _checksum from_bytes_big be16 Nat.eqb Nat.mul].
    { destruct (h1 =? 150) eqn:E96'.
      - intros H _. inversion H; subst.
        apply Z.eqb_eq in E96, E96'. subst. exists rest. split; reflexivity.
      - discriminate. }
    discriminate.
Qed.

Lemma disable_run (s : Serial) :
  disable s
  = (Ok tt, mkSerial [] (trace s ++ [EWrite disable_frame; ESleep 200; EReset])).
Proof.
  unfold disable, bind, sleep, reset_input_buffer, emit.
  rewrite (_send_frame 0x20 None s); [|reflexivity|simpl; lia].
  cbv zeta. unfold emit. cbn [trace in_waiting payload_of length app].
  rewrite <- !app_assoc. reflexivity.
Qed.

Lemma struct_unpack_state (count : nat) (buf : option (list Z)) (s : Serial) :
  snd (struct_unpack count buf s) = s.
Proof.
  unfold struct_unpack. destruct buf as [b|]; [|reflexivity].
  destruct (Nat.eqb (length b) (2 * count)); reflexivity.
Qed.

Lemma SampleCls_state (self : Model) (fields : list Z) (s : Serial) :
  snd (SampleCls self fields s) = s.
Proof.
  destruct self; unfold SampleCls, SampleC0.init, SampleS0.init, bind, index, ret, raise.
  - destruct (nth_error fields 0); [|reflexivity].
    destruct (nth_error fields 1); [|reflexivity].
    destruct (nth_error fields 2); [|reflexivity].
    destruct (nth_error fields 3); reflexivity.
  - destruct (Nat.eqb (length fields) 2).
    + destruct (nth_error fields 0); [|reflexivity].
      destruct (nth_error fields 1); reflexivity.
    + destruct (Nat.eqb (length fields) 13); [|reflexivity].
      destruct (nth_error fields 1); [|reflexivity].
      destruct (nth_error fields 2); reflexivity.
Qed.

Lemma run_with_state {T} (m : M T) (s : Serial) (r : result T) :
  snd (m s) = s -> fst (m s) = r -> m s = (r, s).
Proof. destruct (m s); simpl; intros; subst; reflexivity. Qed.

Section AutosampleFacts.

Context {A : Type}.
Variable callback : Sample -> A -> bool * A.
Variable self : Model.

#[local] Abbreviation body := (autosample_body callback self).
#[local] Abbreviation loop := (autosample_loop callback self).

Lemma body_recv_raises (a : A) (s s1 : Serial) (e : exn) :
  _recv s = (Raise e, s1) -> body a s = (Raise e, s1).
Proof. intros H. unfold autosample_body, bind. rewrite H. reflexivity. Qed.

Lemma body_negack (a : A) (s s1 : Serial) (rsp : Response) :
  _recv s = (Ok rsp, s1) -> state rsp = NEGACK ->
  body a s = (Raise CommandFailure, s1).
Proof.
  intros H Hn. unfold autosample_body, bind. rewrite H, Hn. reflexivity.
Qed.

Lemma body_sample
  (a : A) (s s1 : Serial) (rsp : Response) (fields : list Z) (smp : Sample) :
  _recv s = (Ok rsp, s1) -> state rsp <> NEGACK ->
  fst (struct_unpack 13 (data rsp) s1) = Ok fields ->
  fst (SampleCls self fields s1) = Ok smp ->
  body a s
  = (let (keep, a') := callback smp a in
     if negb keep
     then (Ok (true, a'),
           mkSerial [] (trace s1 ++ [EWrite disable_frame; ESleep 200; EReset]))
     else (Ok (false, a'), s1)).
Proof.
  intros H Hn Hf Hs. unfold autosample_body. unfold bind at 1. rewrite H.
  replace (is_NEGACK (state rsp)) with false
    by (destruct (state rsp); auto; contradiction).
  unfold bind at 1.
  rewrite (run_with_state _ s1 _ (struct_unpack_state _ _ _) Hf).
  unfold bind at 1.
  rewrite (run_with_state _ s1 _ (SampleCls_state _ _ _) Hs).
  destruct (callback smp a) as [[|] a']; cbn [negb]; [reflexivity|].
  unfold bind. rewrite disable_run. reflexivity.
Qed.

(** What one pass does to the port, whatever it receives. *)
Lemma body_effect (a : A) (s s' : Serial) (r : result (bool * A)) :
  body a s = (r, s') ->
  exists evs,
    trace s' = trace s ++ evs
    /\ match r with
       | Ok (true, _) =>
           exists reads,
             evs = reads ++ [EWrite disable_frame; ESleep 200; EReset]
             /\ writes reads = []
       | Ok (false, _) =>
           writes evs = [] /\ (length (in_waiting s') < length (in_waiting s))%nat
       | Raise _ => writes evs = []
       end.
Proof.
  unfold autosample_body. unfold bind at 1.
  pose proof (quiet__recv s) as Q1. pose proof (_recv_ok_consumes s) as C1.
  destruct (_recv s) as [[rsp|e] s1]; cbn [snd] in Q1.
  2:{ intros H. inversion H; subst. destruct Q1 as [(evs & T & W) _].
      exists evs. auto. }
  specialize (C1 s1 rsp eq_refl).
  destruct (is_NEGACK (state rsp)).
  { intros H. inversion H; subst. destruct Q1 as [(evs & T & W) _].
    exists evs. auto. }
  unfold bind at 1.
  pose proof (struct_unpack_state 13 (data rsp) s1) as U.
  destruct (struct_unpack 13 (data rsp) s1) as [[fields|e] s2]; cbn [snd] in U; subst s2.
  2:{ intros H. inversion H; subst. destruct Q1 as [(evs & T & W) _].
      exists evs. auto. }
  unfold bind at 1.
  pose proof (SampleCls_state self fields s1) as U.
  destruct (SampleCls self fields s1) as [[smp|e] s2]; cbn [snd] in U; subst s2.
  2:{ intros H. inversion H; subst. destruct Q1 as [(evs & T & W) _].
      exists evs. auto. }
  destruct Q1 as [(evs & T & W) L].
  destruct (callback smp a) as [[|] a']; cbn [negb].
  - intros H. inversion H; subst. exists evs. repeat split; auto. lia.
  - unfold bind. rewrite disable_run. intros H. inversion H; subst.
    cbn [trace]. exists (evs ++ [EWrite disable_frame; ESleep 200; EReset]).
    split; [rewrite T, app_assoc; reflexivity|].
    exists evs. auto.
Qed.

Lemma passes_effect (n : nat) (a an : A) (s sn : Serial) :
  passes callback self n a s = Some (an, sn) ->
  (exists evs, trace sn = trace s ++ evs /\ writes evs = [])
  /\ (n + length (in_waiting sn) <= length (in_waiting s))%nat.
Proof.
  revert a s. induction n as [|n IH]; intros a s H; simpl in H.
  - inversion H; subst. split; [exists []; rewrite app_nil_r; auto | lia].
  - destruct (body a s) as [[[[|] a1]|e] s1] eqn:Hb; try discriminate.
    apply body_effect in Hb. destruct Hb as (e1 & T1 & W1 & L1).
    destruct (IH a1 s1 H) as [(e2 & T2 & W2) L2]. split; [|lia].
    exists (e1 ++ e2). rewrite T2, T1, app_assoc, writes_app, W1, W2. auto.
Qed.

Lemma loop_after_passes (n fuel : nat) (a an : A) (s sn : Serial) :
  passes callback self n a s = Some (an, sn) ->
  loop (n + fuel) a s = loop fuel an sn.
Proof.
  revert a s. induction n as [|n IH]; intros a s H; simpl in H.
  - inversion H; subst. reflexivity.
  - cbn [Nat.add autosample_loop].
    destruct (body a s) as [[[[|] a1]|e] s1]; try discriminate.
    apply IH; exact H.
Qed.

(** The loop's effect on the port, however it ends. *)
Lemma loop_effect (fuel : nat) (a : A) (s s' : Serial) (r : result A) :
  loop fuel a s = Some (r, s') ->
  exists evs,
    trace s' = trace s ++ evs
    /\ match r with
       | Ok _ =>
           exists reads,
             evs = reads ++ [EWrite disable_frame; ESleep 200; EReset]
             /\ writes reads = []
       | Raise _ => writes evs = []
       end.
Proof.
  revert a s. induction fuel as [|fuel IH]; intros a s H; simpl in H;
    [discriminate|].
  destruct (body a s) as [[[[|] a1]|e] s1] eqn:Hb;
    apply body_effect in Hb; destruct Hb as (e1 & T1 & Hb).
  - inversion H; subst. exists e1. auto.
  - destruct Hb as [W1 _]. destruct (IH a1 s1 H) as (e2 & T2 & He2).
    exists (e1 ++ e2). split; [rewrite T2, T1, app_assoc; reflexivity|].
    destruct r as [a'|e].
    + destruct He2 as (reads & E & W). exists (e1 ++ reads).
      rewrite E, app_assoc, writes_app, W1, W. auto.
    + rewrite writes_app, W1, He2. reflexivity.
  - inversion H; subst. exists e1. auto.
Qed.

(** The loop always comes to an end: the bytes in waiting bound its passes. *)
Lemma loop_terminates (fuel : nat) (a : A) (s : Serial) :
  (length (in_waiting s) < fuel)%nat ->
  exists out, loop fuel a s = Some out.
Proof.
  revert a s. induction fuel as [|fuel IH]; intros a s H; [lia|].
  simpl. destruct (body a s) as [[[[|] a1]|e] s1] eqn:Hb; eauto.
  apply body_effect in Hb. destruct Hb as (e1 & _ & _ & L).
  apply IH. lia.
Qed.

(** Entering and then running the loop, when a pass is reached after [n]
    earlier ones and ends the loop with [out]. *)
Lemma autosample_ends_at_pass
  (n : nat) (a an : A) (s s0 sn : Serial) (out : result A * Serial) :
  autosample_enter s = (Ok tt, s0) ->
  passes callback self n a s0 = Some (an, sn) ->
  (forall fuel, loop (S fuel) an sn = Some out) ->
  autosample callback self a s = Some out.
Proof.
  intros He Hp Hout. unfold autosample. rewrite He.
  destruct (passes_effect n a an s0 sn Hp) as [_ L].
  replace (S (length (in_waiting s0)))
    with (n + S (length (in_waiting s0) - n))%nat by lia.
  rewrite (loop_after_passes n _ a an s0 sn Hp). apply Hout.
Qed.

End AutosampleFacts.

(** C1, as amended.  Streaming has been entered and [n] samples have gone
    round the loop.  If the consumer returns false for the next sample, the
    loop writes the frame of command [0x20], sleeps 200 ms, resets the input
    buffer, and [autosample] returns to its caller; these three are the last
    events of the trace.  If instead the next response is a negative
    acknowledgement, [autosample] raises [CommandFailure] and nothing has
    been written since streaming was entered: no disable command, no sleep,
    no reset.  (The driver object keeps no record of its state.) *)
Theorem autosample_stop_sequence
  {A : Type} (callback : Sample -> A -> bool * A) (self : Model)
  (n : nat) (a an : A) (s s0 sn s1 : Serial) (rsp : Response) :
  autosample_enter s = (Ok tt, s0) ->
  passes callback self n a s0 = Some (an, sn) ->
  _recv sn = (Ok rsp, s1) ->
  (forall (fields : list Z) (smp : Sample) (a' : A),
     state rsp <> NEGACK ->
     fst (struct_unpack 13 (data rsp) s1) = Ok fields ->
     fst (SampleCls self fields s1) = Ok smp ->
     callback smp an = (false, a') ->
     autosample callback self a s
     = Some (Ok a',
             mkSerial [] (trace s1 ++ [EWrite disable_frame; ESleep 200; EReset])))
  /\ (state rsp = NEGACK ->
      autosample callback self a s = Some (Raise CommandFailure, s1)
      /\ since (trace sn) (trace s1) = [ERead 2 [0x96; 0x96]]
      /\ writes (since (trace s0) (trace s1)) = []).
Proof.
  intros He Hp Hr. split.
  - intros fields smp a' Hn Hf Hs Hcb.
    apply (autosample_ends_at_pass callback self n a an s s0 sn _ He Hp).
    intros fuel. cbn [autosample_loop].
    rewrite (body_sample callback self an sn s1 rsp fields smp Hr Hn Hf Hs), Hcb.
    reflexivity.
  - intros Hn. split; [|split].
    + apply (autosample_ends_at_pass callback self n a an s s0 sn _ He Hp).
      intros fuel. cbn [autosample_loop].
      rewrite (body_negack callback self an sn s1 rsp Hr Hn). reflexivity.
    + destruct (_recv_negack_inv sn s1 rsp Hr Hn) as (rest & _ & ->).
      cbn [trace]. apply since_app.
    + destruct (passes_effect callback self n a an s0 sn Hp) as [(e1 & T1 & W1) _].
      destruct (quiet__recv sn) as [(e2 & T2 & W2) _]. rewrite Hr in T2.
      cbn [snd] in T2. rewrite T2, T1, <- app_assoc, since_app, writes_app, W1, W2.
      reflexivity.
Qed.

Lemma autosample_stop_sequence_witness :
  let cb := fun (_ : Sample) (x : nat) => (Nat.ltb (S x) 2, S x) in
  let body := 0 :: 28 :: [0; 0; 0; 55; 0; 77] ++ repeat 0 20 in
  autosample cb HPMA115S0 0%nat
    (mkSerial ([0xA5; 0xA5] ++ stream_frame body ++ stream_frame body) [])
  = Some (Ok 2%nat,
          mkSerial []
            [EWrite [0x68; 0x01; 0x40; 0x57]; ERead 2 [0xA5; 0xA5];
             ERead 2 [0x42; 0x4D]; ERead 28 body; ERead 2 [0x01; 0x2F];
             ERead 2 [0x42; 0x4D]; ERead 28 body; ERead 2 [0x01; 0x2F];
             EWrite [0x68; 0x01; 0x20; 0x77]; ESleep 200; EReset])
  /\ autosample cb HPMA115S0 0%nat
       (mkSerial ([0xA5; 0xA5] ++ stream_frame body ++ [0x96; 0x96]) [])
     = Some (Raise CommandFailure,
             mkSerial []
               [EWrite [0x68; 0x01; 0x40; 0x57]; ERead 2 [0xA5; 0xA5];
                ERead 2 [0x42; 0x4D]; ERead 28 body; ERead 2 [0x01; 0x2F];
                ERead 2 [0x96; 0x96]]).
Proof.
  intros cb body.
  set (sample1 := OfS0 (SampleS0.mk (Some 55) (Some 77))).
  set (fields := [0; 55; 77; 0; 0; 0; 0; 0; 0; 0; 0; 0; 0]).
  split.
  - set (s := mkSerial ([0xA5; 0xA5] ++ stream_frame body ++ stream_frame body) []).
    set (s0 := snd (autosample_enter s)).
    set (sn := snd (autosample_body cb HPMA115S0 0%nat s0)).
    set (rsp := mkResponse DATA (Some (skipn 2 body))).
    set (s1 := snd (_recv sn)).
    exact (proj1 (autosample_stop_sequence cb HPMA115S0 1 0%nat 1%nat s s0 sn s1 rsp
                    eq_refl eq_refl eq_refl)
             fields sample1 2%nat ltac:(discriminate) eq_refl eq_refl eq_refl).
  - set (s := mkSerial ([0xA5; 0xA5] ++ stream_frame body ++ [0x96; 0x96]) []).
    set (s0 := snd (autosample_enter s)).
    set (sn := snd (autosample_body cb HPMA115S0 0%nat s0)).
    set (s1 := snd (_recv sn)).
    exact (proj1 (proj2 (autosample_stop_sequence cb HPMA115S0 1 0%nat 1%nat
                           s s0 sn s1 (mkResponse NEGACK None)
                           eq_refl eq_refl eq_refl) eq_refl)).
Defined.

(** C1 as stated fails for the negative acknowledgement: streaming is
    entered, then the device sends [96 96].  [autosample] raises
    [CommandFailure]; the only packet written is the enabling command
    [0x40], and neither a sleep nor a reset follows. *)
Lemma negack_in_loop_skips_disable :
  autosample (fun (_ : Sample) (x : nat) => (true, x)) HPMA115S0 0%nat
    (mkSerial [0xA5; 0xA5; 0x96; 0x96] [])
  = Some (Raise CommandFailure,
          mkSerial []
            [EWrite [0x68; 0x01; 0x40; 0x57]; ERead 2 [0xA5; 0xA5];
             ERead 2 [0x96; 0x96]])
  /\ ~ In disable_frame
         (writes [EWrite [0x68; 0x01; 0x40; 0x57]; ERead 2 [0xA5; 0xA5];
                  ERead 2 [0x96; 0x96]]).
Proof.
  split; [reflexivity|].
  simpl. intros [H|[]]. discriminate H.
Qed.

(** C5, as amended.  Streaming has been entered and [n] samples have gone
    round the loop.  If decoding the next response fails with
    [ChecksumFailure] or [SerialDataMalformed], [autosample] ends with that
    very exception and nothing was written since streaming was entered, so
    no disable command [0x20] was sent.  And however the loop ends: only a
    stop on the consumer's request runs the disable sequence.  When the
    loop returns normally (the consumer declined) the disable frame is the
    one packet written and the trace ends with write, sleep, reset; when it
    ends with any exception, a decode failure or the [CommandFailure] of a
    negative acknowledgement, nothing was written at all. *)
Theorem decode_failure_skips_disable
  {A : Type} (callback : Sample -> A -> bool * A) (self : Model)
  (n : nat) (a an : A) (s s0 sn s1 : Serial) (e : exn) :
  autosample_enter s = (Ok tt, s0) ->
  passes callback self n a s0 = Some (an, sn) ->
  _recv sn = (Raise e, s1) ->
  e = ChecksumFailure \/ e = SerialDataMalformed ->
  autosample callback self a s = Some (Raise e, s1)
  /\ writes (since (trace s0) (trace s1)) = []
  /\ (forall (fuel : nat) (a0 : A) (st st' : Serial) (r : result A),
        autosample_loop callback self fuel a0 st = Some (r, st') ->
        match r with
        | Ok _ =>
            writes (since (trace st) (trace st')) = [disable_frame]
            /\ exists reads,
                 since (trace st) (trace st')
                 = reads ++ [EWrite disable_frame; ESleep 200; EReset]
        | Raise _ => writes (since (trace st) (trace st')) = []
        end).
Proof.
  intros He Hp Hr _. split; [|split].
  - apply (autosample_ends_at_pass callback self n a an s s0 sn _ He Hp).
    intros fuel. cbn [autosample_loop].
    rewrite (body_recv_raises callback self an sn s1 e Hr). reflexivity.
  - destruct (passes_effect callback self n a an s0 sn Hp) as [(e1 & T1 & W1) _].
    destruct (quiet__recv sn) as [(e2 & T2 & W2) _]. rewrite Hr in T2.
    cbn [snd] in T2. rewrite T2, T1, <- app_assoc, since_app, writes_app, W1, W2.
    reflexivity.
  - intros fuel a0 st st' r Hl.
    destruct (loop_effect callback self fuel a0 st st' r Hl) as (evs & T & Hev).
    rewrite T, since_app. destruct r as [a'|e'].
    + destruct Hev as (reads & -> & W). split; [|exists reads; reflexivity].
      rewrite writes_app, W. reflexivity.
    + exact Hev.
Qed.

Lemma decode_failure_skips_disable_witness :
  let cb := fun (_ : Sample) (x : nat) => (true, S x) in
  let body := 0 :: 28 :: [0; 0; 0; 55; 0; 77] ++ repeat 0 20 in
  autosample cb HPMA115C0 0%nat
    (mkSerial ([0xA5; 0xA5] ++ stream_frame body
               ++ flip 5 56 (stream_frame body)) [])
  = Some (Raise ChecksumFailure,
          mkSerial []
            [EWrite [0x68; 0x01; 0x40; 0x57]; ERead 2 [0xA5; 0xA5];
             ERead 2 [0x42; 0x4D]; ERead 28 body; ERead 2 [0x01; 0x2F];
             ERead 2 [0x42; 0x4D]; ERead 28 (flip 3 56 body); ERead 2 [0x01; 0x2F]])
  /\ autosample cb HPMA115C0 0%nat
       (mkSerial ([0xA5; 0xA5] ++ stream_frame body ++ [0x41; 0x05; 0x04]) [])
     = Some (Raise SerialDataMalformed,
             mkSerial []
               [EWrite [0x68; 0x01; 0x40; 0x57]; ERead 2 [0xA5; 0xA5];
                ERead 2 [0x42; 0x4D]; ERead 28 body; ERead 2 [0x01; 0x2F];
                ERead 2 [0x41; 0x05]; EReset]).
Proof.
  intros cb body. split.
  - set (s := mkSerial ([0xA5; 0xA5] ++ stream_frame body
                        ++ flip 5 56 (stream_frame body)) []).
    set (s0 := snd (autosample_enter s)).
    set (sn := snd (autosample_body cb HPMA115C0 0%nat s0)).
    set (s1 := snd (_recv sn)).
    exact (proj1 (decode_failure_skips_disable cb HPMA115C0 1 0%nat 1%nat
                    s s0 sn s1 ChecksumFailure
                    eq_refl eq_refl eq_refl (or_introl eq_refl))).
  - set (s := mkSerial ([0xA5; 0xA5] ++ stream_frame body ++ [0x41; 0x05; 0x04]) []).
    set (s0 := snd (autosample_enter s)).
    set (sn := snd (autosample_body cb HPMA115C0 0%nat s0)).
    set (s1 := snd (_recv sn)).
    exact (proj1 (decode_failure_skips_disable cb HPMA115C0 1 0%nat 1%nat
                    s s0 sn s1 SerialDataMalformed
                    eq_refl eq_refl eq_refl (or_intror eq_refl))).
Defined.

(** C5 as stated counts the stop on a negative acknowledgement among
    those that run the disable sequence.  It does not: after one sample
    the device sends [96 96], [autosample] ends with [CommandFailure], and
    the enabling command [0x40] is the only packet ever written; no sleep
    and no reset are in the trace. *)
Lemma negack_stop_runs_no_disable :
  let cb := fun (_ : Sample) (x : nat) => (true, S x) in
  let body := 0 :: 28 :: [0; 0; 0; 55; 0; 77] ++ repeat 0 20 in
  let out :=
    autosample cb HPMA115C0 0%nat
      (mkSerial ([0xA5; 0xA5] ++ stream_frame body ++ [0x96; 0x96]) []) in
  out
  = Some (Raise CommandFailure,
          mkSerial []
            [EWrite [0x68; 0x01; 0x40; 0x57]; ERead 2 [0xA5; 0xA5];
             ERead 2 [0x42; 0x4D]; ERead 28 body; ERead 2 [0x01; 0x2F];
             ERead 2 [0x96; 0x96]])
  /\ (forall r st, out = Some (r, st) ->
        ~ In disable_frame (writes (trace st))
        /\ ~ In (ESleep 200) (trace st)
        /\ ~ In EReset (trace st)).
Proof.
  cbv zeta. split; [reflexivity|].
  intros r st H. vm_compute in H. inversion H; subst.
  repeat split; simpl; intuition discriminate.
Qed.

(** [autosample] always comes back to its caller, by a return or by an
    exception: its loop cannot go round for ever once the device falls
    silent. *)
Lemma autosample_total
  {A : Type} (callback : Sample -> A -> bool * A) (self : Model)
  (a : A) (s : Serial) :
  exists out, autosample callback self a s = Some out.
Proof.
  unfold autosample. destruct (autosample_enter s) as [[[]|e] s0]; eauto.
  apply loop_terminates. lia.
Qed.

(** * Further properties of the driver *)

(** ** [_checksum] *)

(** X1.  The checksum of a packet is a byte, appending it makes the byte sum
    of the packet a multiple of 256, and it is the only byte that does. *)
Theorem checksum_closes_sum (packet : list Z) :
  0 <= _checksum packet < 256
  /\ py_sum (packet ++ [_checksum packet]) mod 256 = 0
  /\ (forall c : Z,
        0 <= c < 256 -> py_sum (packet ++ [c]) mod 256 = 0 ->
        c = _checksum packet).
Proof.
  split; [apply is_byte_iff, _checksum_is_byte|].
  assert (Hsum : forall c, py_sum (packet ++ [c]) = py_sum packet + c)
    by (intros c; rewrite py_sum_app; cbn [py_sum]; lia).
  split.
  - rewrite Hsum. unfold _checksum.
    rewrite Z.add_mod_idemp_r by lia.
    replace (py_sum packet + (65536 - py_sum packet)) with (256 * 256) by lia.
    apply Z.mod_mul. lia.
  - intros c Hc H. rewrite Hsum in H. unfold _checksum.
    pose proof (Z.div_mod (py_sum packet + c) 256 ltac:(lia)) as E.
    rewrite H in E.
    replace (65536 - py_sum packet)
      with (c + (256 - (py_sum packet + c) / 256) * 256) by lia.
    rewrite Z.mod_add by lia. symmetry. apply Z.mod_small. exact Hc.
Qed.

Lemma checksum_closes_sum_witness :
  0x77 = _checksum [0x68; 0x01; 0x20].
Proof.
  apply (proj2 (proj2 (checksum_closes_sum [0x68; 0x01; 0x20]))).
  - lia.
  - reflexivity.
Defined.

(** ** [_send] *)

(** X2.  [_send] is all or nothing, for every argument: either it writes
    exactly one packet, of four bytes more than the payload, and touches
    nothing else, or it raises [ValueError] and leaves the port and its
    trace as they were.  It raises exactly when the command is no byte or
    the payload has 255 bytes or more.  It never reads. *)
Theorem send_all_or_nothing (command : Z) (data : option (list Z)) (s : Serial) :
  (0 <= command < 256 /\ (length (payload_of data) <= 254)%nat
   /\ exists packet,
        _send command data s
        = (Ok tt, mkSerial (in_waiting s) (trace s ++ [EWrite packet]))
        /\ length packet = (length (payload_of data) + 4)%nat)
  \/ (~ (0 <= command < 256 /\ (length (payload_of data) <= 254)%nat)
      /\ _send command data s = (Raise ValueError, s)).
Proof.
  destruct (le_dec (length (payload_of data)) 254) as [Hlen|Hlen].
  - destruct (is_byte command) eqn:Hc.
    + left. apply is_byte_iff in Hc. split; [exact Hc|]. split; [exact Hlen|].
      eexists. split.
      * rewrite _send_frame; [reflexivity|apply is_byte_iff; exact Hc|exact Hlen].
      * cbn [length]. rewrite length_app. cbn [length]. lia.
    + right. split.
      * intros [H _]. apply is_byte_iff in H. congruence.
      * assert (Hl : is_byte (Z.of_nat (length (payload_of data)) + 1) = true)
          by (apply is_byte_iff; lia).
        unfold _send, bind, append, ret, raise.
        destruct data as [d|]; simpl in *.
        -- rewrite Hl. simpl. rewrite Hc. reflexivity.
        -- rewrite Hc. reflexivity.
  - right. split; [tauto|].
    destruct data as [d|]; simpl in Hlen; [|lia].
    apply _send_too_long. lia.
Qed.

(** ** [_recv] *)

(** Every way [_recv] can return a response, read off its four branches. *)
Lemma _recv_ok_inv (s s1 : Serial) (rsp : Response) :
  _recv s = (Ok rsp, s1) ->
  (exists h1 rest,
     in_waiting s = 0x40 :: h1 :: rest
     /\ from_bytes_big (firstn 1 (skipn (Z.to_nat h1) rest))
        = _checksum (0x40 :: h1 :: firstn (Z.to_nat h1) rest)
     /\ rsp = mkResponse DATA (Some (skipn 1 (firstn (Z.to_nat h1) rest)))
     /\ s1 = mkSerial (skipn 1 (skipn (Z.to_nat h1) rest))
               (trace s ++ [ERead 2 [0x40; h1];
                            ERead (Z.to_nat h1) (firstn (Z.to_nat h1) rest);
                            ERead 1 (firstn 1 (skipn (Z.to_nat h1) rest))]))
  \/ (exists rest hi lo,
        in_waiting s = 0x42 :: 0x4D :: rest
        /\ firstn 2 (skipn 28 rest) = [hi; lo]
        /\ hi * 256 + lo = py_sum (0x42 :: 0x4D :: firstn 28 rest) mod 65536
        /\ rsp = mkResponse DATA (Some (skipn 2 (firstn 28 rest)))
        /\ s1 = mkSerial (skipn 2 (skipn 28 rest))
                  (trace s ++ [ERead 2 [0x42; 0x4D]; ERead 28 (firstn 28 rest);
                               ERead 2 [hi; lo]]))
  \/ (exists rest,
        in_waiting s = 0xA5 :: 0xA5 :: rest
        /\ rsp = mkResponse POSACK None
        /\ s1 = mkSerial rest (trace s ++ [ERead 2 [0xA5; 0xA5]]))
  \/ (exists rest,
        in_waiting s = 0x96 :: 0x96 :: rest
        /\ rsp = mkResponse NEGACK None
        /\ s1 = mkSerial rest (trace s ++ [ERead 2 [0x96; 0x96]])).
Proof.
  destruct s as [inw tr]. destruct inw as [|h0 [|h1 rest]].
  - rewrite _recv_on_silence. discriminate.
  - unfold _recv, bind, ser_read, index, ret, raise, reset_input_buffer. simpl.
    destruct (h0 =? 64); [discriminate|].
    destruct (h0 =? 66); simpl; [discriminate|].
    destruct (h0 =? 165); simpl; [discriminate|].
    destruct (h0 =? 150); simpl; discriminate.
  - unfold _recv, bind, ser_read, index, ret, raise, struct_unpack,
      reset_input_buffer.
    cbn -[firstn skipn py_sum _checksum from_bytes_big be16 Nat.eqb Nat.mul].
    change (firstn 2 (h0 :: h1 :: rest)) with [h0; h1].
    change (skipn 2 (h0 :: h1 :: rest)) with rest.
    cbn -[firstn skipn py_sum _checksum from_bytes_big be16 Nat.eqb Nat.mul].
    destruct (h0 =? 64) eqn:E40.
    { apply Z.eqb_eq in E40. subst h0.
      match goal with |- context [if negb (?a =? ?b) then _ else _] =>
        destruct (a =? b) eqn:Ecs end; cbn [negb]; [|discriminate].
      apply Z.eqb_eq in Ecs. intros H. inversion H; subst.
      left. exists h1, rest. rewrite <- !app_assoc. repeat split; auto. }
    destruct (h0 =? 66) eqn:E66;
      cbn -[firstn skipn py_sum _checksum from_bytes_big be16 Nat.eqb Nat.mul].
    { apply Z.eqb_eq in E66. subst h0.
      destruct (h1 =? 77) eqn:E4D.
      - apply Z.eqb_eq in E4D. subst h1.
        cbn -[firstn skipn py_sum _checksum from_bytes_big be16 Nat.eqb Nat.mul].
        remember (firstn 2 (skipn 28 rest)) as ck eqn:Eck.
        destruct ck as [|hi [|lo [|x ck]]];
          cbn -[firstn skipn py_sum _checksum from_bytes_big];
          try discriminate.
        match goal with |- context [if negb (?a =? ?b) then _ else _] =>
          destruct (a =? b) eqn:Ecs end; cbn [negb]; [|discriminate].
        apply Z.eqb_eq in Ecs. intros H. inversion H; subst.
        right. left. exists rest, hi, lo. rewrite <- !app_assoc.
        repeat split; auto.
      - cbn -[firstn skipn py_sum _checksum from_bytes_big be16 Nat.eqb Nat.mul].
        discriminate. }
    destruct (h0 =? 165) eqn:EA5;
      cbn -[firstn skipn py_sum _checksum from_bytes_big be16 Nat.eqb Nat.mul].
    { apply Z.eqb_eq in EA5. subst h0.
      destruct (h1 =? 165) eqn:EA5'.
      - apply Z.eqb_eq in EA5'. subst h1. intros H. inversion H; subst.
        right. right. left. exists rest. repeat split; auto.
      - cbn. discriminate. }
    destruct (h0 =? 150) eqn:E96;
      cbn -[firstn skipn py_sum _checksum from_bytes_big be16 Nat.eqb Nat.mul].
    { apply Z.eqb_eq in E96. subst h0.
      destruct (h1 =? 150) eqn:E96'.
      - apply Z.eqb_eq in E96'. subst h1. intros H. inversion H; subst.
        right. right. right. exists rest. repeat split; auto.
      - discriminate. }
    discriminate.
Qed.

(** X3.  Whatever arrives, [_recv] raises nothing but [ChecksumFailure],
    [SerialDataMalformed], [IndexError] and [struct.error]; in particular
    it never raises [CommandFailure], which is left to the callers. *)
Theorem recv_raises_only_decode_errors (s : Serial) (e : exn) :
  fst (_recv s) = Raise e ->
  e = ChecksumFailure \/ e = SerialDataMalformed
  \/ e = IndexError \/ e = StructError.
Proof.
  intros H. pose proof (_recv_raises_only s) as Hr. rewrite H in Hr. exact Hr.
Qed.

Lemma recv_raises_only_decode_errors_witness :
  ChecksumFailure = ChecksumFailure \/ ChecksumFailure = SerialDataMalformed
  \/ ChecksumFailure = IndexError \/ ChecksumFailure = StructError.
Proof.
  exact (recv_raises_only_decode_errors
           (mkSerial [0x40; 0x01; 0x04; 0x00] []) ChecksumFailure eq_refl).
Defined.

Lemma only_reads_ret {A} (a : A) : only_reads (ret a).
Proof.
  intros s. exists []. rewrite app_nil_r. repeat split. discriminate.
Qed.

Lemma only_reads_raise {A} (e : exn) :
  e <> SerialDataMalformed -> only_reads (@raise A e).
Proof.
  intros He s. exists []. rewrite app_nil_r. repeat split.
  simpl. intros H. inversion H. contradiction.
Qed.

Lemma only_reads_ser_read (size : nat) : only_reads (ser_read size).
Proof.
  intros s. eexists. simpl. split; [reflexivity|]. split; [reflexivity|discriminate].
Qed.

Lemma only_reads_index (b : list Z) (i : nat) : only_reads (index b i).
Proof.
  unfold index. destruct (nth_error b i);
    [apply only_reads_ret | apply only_reads_raise; discriminate].
Qed.

Lemma only_reads_struct_unpack (count : nat) (buf : option (list Z)) :
  only_reads (struct_unpack count buf).
Proof.
  unfold struct_unpack. destruct buf as [b|];
    [|apply only_reads_raise; discriminate].
  destruct (Nat.eqb (length b) (2 * count));
    [apply only_reads_ret | apply only_reads_raise; discriminate].
Qed.

Lemma only_reads_bind {A B} (m : M A) (k : A -> M B) :
  only_reads m -> (forall a, only_reads (k a)) -> only_reads (bind m k).
Proof.
  intros Hm Hk s. unfold bind. destruct (Hm s) as (e1 & T1 & R1 & N1).
  destruct (m s) as [[a|e] s']; simpl in *.
  - destruct (Hk a s') as (e2 & T2 & R2 & N2). exists (e1 ++ e2).
    split; [rewrite T2, T1, app_assoc; reflexivity|].
    split; [rewrite forallb_app, R1, R2; reflexivity | exact N2].
  - exists e1. split; [exact T1|]. split; [exact R1|].
    intros H. apply N1. inversion H. reflexivity.
Qed.

Lemma resets_when_malformed_of_only_reads {A} (m : M A) :
  only_reads m -> resets_when_malformed m.
Proof.
  intros Hm s. destruct (Hm s) as (evs & T & R & N). exists evs.
  split; [exact R|]. rewrite T.
  destruct (fst (m s)) as [a|[]]; rewrite ?app_nil_r; auto. contradiction.
Qed.

Lemma resets_when_malformed_bind {A B} (m : M A) (k : A -> M B) :
  only_reads m -> (forall a, resets_when_malformed (k a)) ->
  resets_when_malformed (bind m k).
Proof.
  intros Hm Hk s. unfold bind. destruct (Hm s) as (e1 & T1 & R1 & N1).
  destruct (m s) as [[a|e] s']; simpl in *.
  - destruct (Hk a s') as (e2 & R2 & T2). exists (e1 ++ e2).
    rewrite forallb_app, R1, R2. split; [reflexivity|].
    rewrite T2, T1, <- !app_assoc. reflexivity.
  - exists e1. split; [exact R1|]. rewrite T1.
    destruct e; rewrite ?app_nil_r; auto. contradiction.
Qed.

Lemma resets_when_malformed_last :
  resets_when_malformed
    (reset_input_buffer ;;; @raise Response SerialDataMalformed).
Proof. intros s. exists []. split; reflexivity. Qed.

Ltac only_reads_tac :=
  repeat first
    [ apply only_reads_ret
    | apply only_reads_raise; discriminate
    | apply only_reads_ser_read
    | apply only_reads_index
    | apply only_reads_struct_unpack
    | apply only_reads_bind; [|intros ?]
    | match goal with
      | |- only_reads (if ?c then _ else _) => destruct c
      end ].

Ltac resets_when_malformed_tac :=
  repeat first
    [ apply resets_when_malformed_last
    | match goal with
      | |- resets_when_malformed (if ?c then _ else _) => destruct c
      end
    | apply resets_when_malformed_bind; [solve [only_reads_tac]|intros ?]
    | apply resets_when_malformed_of_only_reads; solve [only_reads_tac] ].

Lemma _recv_resets_when_malformed : resets_when_malformed _recv.
Proof. unfold _recv. resets_when_malformed_tac. Qed.

(** X4.  All [_recv] ever does to the port is read, never write or sleep,
    with one exception: it resets the input buffer once, as its last act,
    exactly when it raises [SerialDataMalformed]. *)
Theorem recv_reads_and_resets_only_when_malformed (s : Serial) :
  exists reads,
    forallb is_read reads = true
    /\ since (trace s) (trace (snd (_recv s)))
       = reads ++ match fst (_recv s) with
                  | Raise SerialDataMalformed => [EReset]
                  | _ => []
                  end.
Proof.
  destruct (_recv_resets_when_malformed s) as (reads & R & T).
  exists reads. split; [exact R|]. rewrite T. apply since_app.
Qed.

(** X5.  A response costs at least the two header bytes, and [_recv] takes
    its bytes from the front only: what is still waiting afterwards is a
    tail of what was waiting before. *)
Theorem recv_response_consumes_a_prefix (s s1 : Serial) (rsp : Response) :
  _recv s = (Ok rsp, s1) ->
  exists used,
    in_waiting s = used ++ in_waiting s1 /\ (2 <= length used)%nat.
Proof.
  intros H. destruct (_recv_ok_inv s s1 rsp H)
    as [(h1 & rest & E & _ & _ & ->)
       |[(rest & hi & lo & E & Eck & _ & _ & ->)
        |[(rest & E & _ & ->)|(rest & E & _ & ->)]]]; rewrite E; cbn [in_waiting].
  - exists (0x40 :: h1 :: firstn (Z.to_nat h1) rest
            ++ firstn 1 (skipn (Z.to_nat h1) rest)).
    split; [|simpl; lia]. cbn [app]. rewrite <- app_assoc.
    rewrite (firstn_skipn 1), (firstn_skipn (Z.to_nat h1)). reflexivity.
  - exists (0x42 :: 0x4D :: firstn 28 rest ++ firstn 2 (skipn 28 rest)).
    split; [|simpl; lia]. cbn [app]. rewrite <- app_assoc.
    rewrite (firstn_skipn 2), (firstn_skipn 28). reflexivity.
  - exists [0xA5; 0xA5]. split; [reflexivity|simpl; lia].
  - exists [0x96; 0x96]. split; [reflexivity|simpl; lia].
Qed.

Lemma recv_response_consumes_a_prefix_witness :
  exists used,
    [0xA5; 0xA5; 0x42; 0x4D] = used ++ [0x42; 0x4D] /\ (2 <= length used)%nat.
Proof.
  exact (recv_response_consumes_a_prefix
           (mkSerial [0xA5; 0xA5; 0x42; 0x4D] [])
           (mkSerial [0x42; 0x4D] [ERead 2 [0xA5; 0xA5]])
           (mkResponse POSACK None) eq_refl).
Defined.

(** X6.  Round trip of the command-response family: a data frame built the
    way [_recv] checks it (header [0x40], length, data, checksum of
    [_checksum]) is accepted whatever its data, an empty one included;
    [_recv] reads exactly the frame, leaves what follows it untouched, and
    returns the data without its first byte, which it does not look at. *)
Theorem recv_response_frame_round_trip
  (data rest : list Z) (tr : list event) :
  (length data <= 255)%nat ->
  _recv (mkSerial (response_frame data ++ rest) tr)
  = (Ok (mkResponse DATA (Some (skipn 1 data))),
     mkSerial rest
       (tr ++ [ERead 2 [0x40; Z.of_nat (length data)];
               ERead (length data) data;
               ERead 1 [_checksum (0x40 :: Z.of_nat (length data) :: data)]])).
Proof.
  intros _. unfold response_frame.
  pose proof (_recv_command_family data
                (_checksum (0x40 :: Z.of_nat (length data) :: data)) rest tr) as H.
  cbn [app] in *. rewrite <- app_assoc. cbn [app]. rewrite H.
  rewrite Z.eqb_refl. reflexivity.
Qed.

Lemma recv_response_frame_round_trip_witness :
  _recv (mkSerial (response_frame [] ++ [0xA5; 0xA5]) [])
  = (Ok (mkResponse DATA (Some [])),
     mkSerial [0xA5; 0xA5] [ERead 2 [0x40; 0]; ERead 0 []; ERead 1 [0xC0]]).
Proof.
  exact (recv_response_frame_round_trip [] [0xA5; 0xA5] [] ltac:(simpl; lia)).
Defined.

(** X7.  Round trip of the streaming family: a frame of header [0x42 0x4D],
    a 28-byte body and the 16-bit sum of header and body, high byte first,
    is accepted whatever the body; [_recv] reads exactly its 32 bytes and
    returns the last 26 bytes of the body. *)
Theorem recv_stream_frame_round_trip
  (body rest : list Z) (tr : list event) :
  length body = 28%nat ->
  let cs := py_sum (0x42 :: 0x4D :: body) mod 65536 in
  _recv (mkSerial (stream_frame body ++ rest) tr)
  = (Ok (mkResponse DATA (Some (skipn 2 body))),
     mkSerial rest
       (tr ++ [ERead 2 [0x42; 0x4D]; ERead 28 body;
               ERead 2 [cs / 256; cs mod 256]]))
  /\ length (stream_frame body) = 32%nat
  /\ length (skipn 2 body) = 26%nat.
Proof.
  intros Hlen cs. split; [|split].
  - unfold stream_frame. cbv zeta. fold cs.
    pose proof (_recv_stream_family body (cs / 256) (cs mod 256) rest tr Hlen) as H.
    cbn [app] in *. rewrite <- app_assoc. cbn [app]. rewrite H.
    replace (cs / 256 * 256 + cs mod 256) with cs
      by (pose proof (Z.div_mod cs 256 ltac:(lia)); lia).
    fold cs. rewrite Z.eqb_refl. reflexivity.
  - unfold stream_frame. cbv zeta. cbn [length]. rewrite length_app, Hlen.
    reflexivity.
  - rewrite length_skipn, Hlen. reflexivity.
Qed.

Lemma recv_stream_frame_round_trip_witness :
  fst (_recv (mkSerial (stream_frame (repeat 255 28) ++ [0x96]) []))
  = Ok (mkResponse DATA (Some (repeat 255 26))).
Proof.
  exact (f_equal fst
           (proj1 (recv_stream_frame_round_trip (repeat 255 28) [0x96] [] eq_refl))).
Defined.

(** X8.  The kind of a response is decided by the two header bytes alone:
    [A5 A5] always gives a positive and [96 96] a negative acknowledgement,
    each for the cost of exactly those two bytes, and [_recv] returns an
    acknowledgement for no other input.  Acknowledgements carry no data,
    data responses always carry some (possibly empty). *)
Theorem recv_classifies_by_header (s : Serial) :
  (forall rest tr,
     _recv (mkSerial (0xA5 :: 0xA5 :: rest) tr)
     = (Ok (mkResponse POSACK None), mkSerial rest (tr ++ [ERead 2 [0xA5; 0xA5]])))
  /\ (forall rest tr,
        _recv (mkSerial (0x96 :: 0x96 :: rest) tr)
        = (Ok (mkResponse NEGACK None), mkSerial rest (tr ++ [ERead 2 [0x96; 0x96]])))
  /\ (forall rsp s1,
        _recv s = (Ok rsp, s1) ->
        (state rsp = POSACK -> exists rest, in_waiting s = 0xA5 :: 0xA5 :: rest)
        /\ (state rsp = NEGACK -> exists rest, in_waiting s = 0x96 :: 0x96 :: rest)
        /\ (state rsp = DATA ->
            (exists h1 rest, in_waiting s = 0x40 :: h1 :: rest)
            \/ (exists rest, in_waiting s = 0x42 :: 0x4D :: rest))
        /\ (data rsp = None <-> state rsp <> DATA)).
Proof.
  split; [intros; reflexivity|]. split; [intros; reflexivity|].
  intros rsp s1 H.
  destruct (_recv_ok_inv s s1 rsp H)
    as [(h1 & rest & E & _ & -> & _)
       |[(rest & hi & lo & E & _ & _ & -> & _)
        |[(rest & E & -> & _)|(rest & E & -> & _)]]]; cbn [state data];
    (split; [|split; [|split; [|split]]]);
    try discriminate;
    try (intros Hc; exfalso; apply Hc; reflexivity);
    try congruence;
    try (intros _); eauto.
Qed.

Lemma recv_classifies_by_header_witness :
  (POSACK = POSACK -> exists rest, [0xA5; 0xA5; 0x01] = 0xA5 :: 0xA5 :: rest)
  /\ (@None (list Z) = None <-> POSACK <> DATA).
Proof.
  pose proof (proj2 (proj2 (recv_classifies_by_header
                              (mkSerial [0xA5; 0xA5; 0x01] [])))
                (mkResponse POSACK None)
                (mkSerial [0x01] [ERead 2 [0xA5; 0xA5]]) eq_refl) as H.
  exact (conj (proj1 H) (proj2 (proj2 (proj2 H)))).
Defined.

(** ** The command methods *)

(** A command without payload always goes out, as one packet. *)
Lemma _send_command (command : Z) (s : Serial) :
  0 <= command < 256 ->
  _send command None s
  = (Ok tt, mkSerial (in_waiting s) (trace s ++ [EWrite (command_frame command)])).
Proof.
  intros Hc. rewrite _send_frame; [reflexivity|apply is_byte_iff; exact Hc|simpl; lia].
Qed.

(** The exchange shared by [start_measurement], [stop_measurement] and the
    entry of [autosample]: send, receive, fail on a negative
    acknowledgement. *)
Lemma exchange_effect (command : Z) (s : Serial) :
  0 <= command < 256 ->
  let m := (_send command None ;;;
            rsp <- _recv ;;
            if is_NEGACK (state rsp) then raise CommandFailure else ret tt) in
  writes (since (trace s) (trace (snd (m s)))) = [command_frame command]
  /\ (fst (m s) = Raise CommandFailure
      <-> exists rest, in_waiting s = 0x96 :: 0x96 :: rest)
  /\ (forall data rest,
        (length data <= 255)%nat ->
        in_waiting s = response_frame data ++ rest ->
        m s = (Ok tt,
               mkSerial rest
                 (trace s ++ [EWrite (command_frame command);
                              ERead 2 [0x40; Z.of_nat (length data)];
                              ERead (length data) data;
                              ERead 1 [_checksum (0x40 :: Z.of_nat (length data) :: data)]]))).
Proof.
  intros Hc m.
  set (s0 := mkSerial (in_waiting s) (trace s ++ [EWrite (command_frame command)])).
  assert (Hm : m s
               = (let (r, s1) := _recv s0 in
                  match r with
                  | Ok rsp =>
                      if is_NEGACK (state rsp) then (Raise CommandFailure, s1)
                      else (Ok tt, s1)
                  | Raise e => (Raise e, s1)
                  end)).
  { subst m. unfold bind at 1. rewrite (_send_command command s Hc).
    fold s0. cbv beta iota. unfold bind.
    destruct (_recv s0) as [[rsp|e] s1]; [|reflexivity].
    destruct (is_NEGACK (state rsp)); reflexivity. }
  rewrite Hm. clear Hm.
  split; [|split].
  - destruct (quiet__recv s0) as [(evs & T & W) _].
    destruct (_recv s0) as [[rsp|e] s1]; cbn [snd] in T.
    + assert (Ht : trace (snd (if is_NEGACK (state rsp)
                                then (@Raise unit CommandFailure, s1)
                                else (Ok tt, s1)))
                   = trace s1) by (destruct (is_NEGACK (state rsp)); reflexivity).
      rewrite Ht, T. subst s0. cbn [trace]. rewrite <- app_assoc, since_app.
      cbn [app writes]. rewrite W. reflexivity.
    + cbn [snd]. rewrite T. subst s0. cbn [trace].
      rewrite <- app_assoc, since_app. cbn [app writes]. rewrite W. reflexivity.
  - split.
    + intros H. destruct (_recv s0) as [[rsp|e] s1] eqn:Hr.
      * destruct (state rsp) eqn:Hs; cbn in H; try discriminate.
        destruct (_recv_negack_inv s0 s1 rsp Hr Hs) as (rest & E & _).
        exists rest. exact E.
      * cbn in H. inversion H; subst.
        pose proof (_recv_raises_only s0) as He. rewrite Hr in He.
        cbn in He. unfold recv_error in He. intuition discriminate.
    + intros (rest & E). subst s0. rewrite E. reflexivity.
  - intros data rest _ E. subst s0. rewrite E.
    unfold response_frame.
    pose proof (_recv_command_family data
                  (_checksum (0x40 :: Z.of_nat (length data) :: data)) rest
                  (trace s ++ [EWrite (command_frame command)])) as H.
    cbn [app] in *. rewrite <- app_assoc. cbn [app]. rewrite H.
    rewrite Z.eqb_refl. cbn [state is_NEGACK].
    rewrite <- app_assoc. reflexivity.
Qed.

(** X9.  [start_measurement] and [stop_measurement] write exactly one
    packet whatever happens next, the frame of command [0x01] or [0x02];
    they raise [CommandFailure] exactly when the reply starts with
    [96 96]; and they do not insist on an acknowledgement: a well-formed
    data frame in reply is taken for success. *)
Theorem measurement_commands (s : Serial) :
  (writes (since (trace s) (trace (snd (start_measurement s))))
   = [[0x68; 0x01; 0x01; 0x96]]
   /\ writes (since (trace s) (trace (snd (stop_measurement s))))
      = [[0x68; 0x01; 0x02; 0x95]])
  /\ ((fst (start_measurement s) = Raise CommandFailure
       <-> exists rest, in_waiting s = 0x96 :: 0x96 :: rest)
      /\ (fst (stop_measurement s) = Raise CommandFailure
          <-> exists rest, in_waiting s = 0x96 :: 0x96 :: rest))
  /\ (forall data rest,
        (length data <= 255)%nat ->
        in_waiting s = response_frame data ++ rest ->
        fst (start_measurement s) = Ok tt /\ fst (stop_measurement s) = Ok tt).
Proof.
  destruct (exchange_effect 0x01 s ltac:(lia)) as (W1 & N1 & D1).
  destruct (exchange_effect 0x02 s ltac:(lia)) as (W2 & N2 & D2).
  split; [split; [exact W1|exact W2]|].
  split; [split; [exact N1|exact N2]|].
  intros data rest Hlen E. split.
  - unfold start_measurement. rewrite (D1 data rest Hlen E). reflexivity.
  - unfold stop_measurement. rewrite (D2 data rest Hlen E). reflexivity.
Qed.

Lemma measurement_commands_witness :
  fst (start_measurement (mkSerial (response_frame [0x04; 0x00; 0x37] ++ []) [])) = Ok tt
  /\ fst (stop_measurement (mkSerial (response_frame [0x04; 0x00; 0x37] ++ []) [])) = Ok tt.
Proof.
  exact (proj2 (proj2 (measurement_commands
                         (mkSerial (response_frame [0x04; 0x00; 0x37] ++ []) [])))
           [0x04; 0x00; 0x37] [] ltac:(simpl; lia) eq_refl).
Defined.

(** X10.  [sample] on the compact driver: the reply [40 0D echo d0 .. d11 cs]
    gives the sample whose four values are the first four big-endian 16-bit
    fields of the twelve data bytes.  The last two fields are dropped, the
    echo byte is not compared with the command, and nothing restricts the
    values.  Exactly the frame of command [0x04] is written and exactly the
    reply is read. *)
Theorem sample_C0_decodes
  (echo d0 d1 d2 d3 d4 d5 d6 d7 d8 d9 d10 d11 : Z)
  (rest : list Z) (tr : list event) :
  let data := [echo; d0; d1; d2; d3; d4; d5; d6; d7; d8; d9; d10; d11] in
  sample HPMA115C0 (mkSerial (response_frame data ++ rest) tr)
  = (Ok (OfC0 (SampleC0.mk (d0 * 256 + d1) (d2 * 256 + d3)
                 (d4 * 256 + d5) (d6 * 256 + d7))),
     mkSerial rest
       (tr ++ [EWrite [0x68; 0x01; 0x04; 0x93]; ERead 2 [0x40; 13];
               ERead 13 data; ERead 1 [_checksum (0x40 :: 13 :: data)]])).
Proof.
  intros data. unfold sample. unfold bind at 1.
  rewrite (_send_command 0x04) by lia. cbv beta iota. unfold bind at 1.
  cbn [in_waiting trace]. unfold response_frame.
  pose proof (_recv_command_family data (_checksum (0x40 :: 13 :: data)) rest
                (tr ++ [EWrite (command_frame 0x04)])) as H.
  change (Z.of_nat (length data)) with 13 in *.
  cbn [app] in H. cbn [app]. rewrite <- app_assoc. cbn [app].
  rewrite H, Z.eqb_refl. rewrite <- app_assoc. reflexivity.
Qed.

(** X11.  How [sample] fails, on either driver and always after the frame
    of command [0x04] has been written: a negative acknowledgement raises
    [CommandFailure], a positive one [TypeError] (there is no data to
    unpack), a data reply whose data is not exactly 13 bytes long (echo
    plus six fields) [struct.error], and silence [IndexError]. *)
Theorem sample_failures (self : Model) (rest : list Z) (tr : list event) :
  let sent := tr ++ [EWrite [0x68; 0x01; 0x04; 0x93]] in
  sample self (mkSerial (0x96 :: 0x96 :: rest) tr)
  = (Raise CommandFailure, mkSerial rest (sent ++ [ERead 2 [0x96; 0x96]]))
  /\ sample self (mkSerial (0xA5 :: 0xA5 :: rest) tr)
     = (Raise TypeError, mkSerial rest (sent ++ [ERead 2 [0xA5; 0xA5]]))
  /\ sample self (mkSerial [] tr)
     = (Raise IndexError, mkSerial [] (sent ++ [ERead 2 []]))
  /\ (forall reply : list Z,
        (length reply <= 255)%nat -> length reply <> 13%nat ->
        fst (sample self (mkSerial (response_frame reply ++ rest) tr))
        = Raise StructError
        /\ in_waiting (snd (sample self (mkSerial (response_frame reply ++ rest) tr)))
           = rest).
Proof.
  intros sent. subst sent.
  split; [|split; [|split]].
  - unfold sample, bind. rewrite (_send_command 0x04) by lia. simpl.
    rewrite <- ?app_assoc. reflexivity.
  - unfold sample, bind. rewrite (_send_command 0x04) by lia. simpl.
    rewrite <- ?app_assoc. reflexivity.
  - unfold sample, bind. rewrite (_send_command 0x04) by lia. simpl.
    rewrite <- ?app_assoc. reflexivity.
  - intros reply _ Hlen.
    assert (E : sample self (mkSerial (response_frame reply ++ rest) tr)
                = (Raise StructError,
                   mkSerial rest
                     ((tr ++ [EWrite (command_frame 0x04)])
                      ++ [ERead 2 [0x40; Z.of_nat (length reply)];
                          ERead (length reply) reply;
                          ERead 1 [_checksum (0x40 :: Z.of_nat (length reply) :: reply)]]))).
    { unfold sample. unfold bind at 1.
      rewrite (_send_command 0x04) by lia. cbv beta iota. unfold bind at 1.
      cbn [in_waiting trace]. unfold response_frame.
      pose proof (_recv_command_family reply
                    (_checksum (0x40 :: Z.of_nat (length reply) :: reply)) rest
                    (tr ++ [EWrite (command_frame 0x04)])) as H.
      cbn [app] in H. cbn [app]. rewrite <- app_assoc. cbn [app].
      rewrite H, Z.eqb_refl. cbn [state is_NEGACK data].
      unfold bind, struct_unpack.
      replace (Nat.eqb (length (skipn 1 reply)) (2 * 6)) with false;
        [reflexivity|].
      symmetry. apply Nat.eqb_neq. rewrite length_skipn.
      change (2 * 6)%nat with 12%nat. destruct reply; simpl in *; lia. }
    rewrite E. split; reflexivity.
Qed.

Lemma sample_failures_witness :
  fst (sample HPMA115C0
         (mkSerial (response_frame [0x04; 0x00; 0x37; 0x00; 0x4D] ++ [0x01]) []))
  = Raise StructError
  /\ in_waiting
       (snd (sample HPMA115C0
               (mkSerial (response_frame [0x04; 0x00; 0x37; 0x00; 0x4D] ++ [0x01]) [])))
     = [0x01].
Proof.
  apply (proj2 (proj2 (proj2 (sample_failures HPMA115C0 [0x01] [])))).
  - simpl; lia.
  - simpl; lia.
Defined.

Lemma read_cust_adj_coeff_data
  (echo : Z) (payload rest : list Z) (tr : list event) :
  let reply := echo :: payload in
  read_cust_adj_coeff (mkSerial (response_frame reply ++ rest) tr)
  = (Ok (from_bytes_big payload),
     mkSerial rest
       ((tr ++ [EWrite (command_frame 0x10)])
        ++ [ERead 2 [0x40; Z.of_nat (length reply)]; ERead (length reply) reply;
            ERead 1 [_checksum (0x40 :: Z.of_nat (length reply) :: reply)]])).
Proof.
  intros reply. unfold read_cust_adj_coeff. unfold bind at 1.
  rewrite (_send_command 0x10) by lia. cbv beta iota. unfold bind at 1.
  cbn [in_waiting trace]. unfold response_frame.
  pose proof (_recv_command_family reply
                (_checksum (0x40 :: Z.of_nat (length reply) :: reply)) rest
                (tr ++ [EWrite (command_frame 0x10)])) as H.
  cbn [app] in H. cbn [app]. rewrite <- app_assoc. cbn [app].
  rewrite H, Z.eqb_refl. reflexivity.
Qed.

(** X12.  [read_cust_adj_coeff] returns the reply's data after the echo
    byte, read as a big-endian number: the byte [c] of the reply
    [40 02 echo c cs] as it is, with no check that it lies in [30, 200];
    two bytes as a 16-bit number; and 0 when nothing follows the echo.  A
    positive acknowledgement in reply raises [TypeError], a negative one
    [CommandFailure]. *)
Theorem read_cust_adj_coeff_replies (rest : list Z) (tr : list event) :
  let sent := tr ++ [EWrite [0x68; 0x01; 0x10; 0x87]] in
  (forall echo c : Z,
     read_cust_adj_coeff (mkSerial (response_frame [echo; c] ++ rest) tr)
     = (Ok c,
        mkSerial rest
          (sent ++ [ERead 2 [0x40; 2]; ERead 2 [echo; c];
                    ERead 1 [_checksum [0x40; 2; echo; c]]])))
  /\ (forall echo hi lo : Z,
        fst (read_cust_adj_coeff
               (mkSerial (response_frame [echo; hi; lo] ++ rest) tr))
        = Ok (hi * 256 + lo))
  /\ (forall echo : Z,
        fst (read_cust_adj_coeff (mkSerial (response_frame [echo] ++ rest) tr))
        = Ok 0)
  /\ read_cust_adj_coeff (mkSerial (0xA5 :: 0xA5 :: rest) tr)
     = (Raise TypeError, mkSerial rest (sent ++ [ERead 2 [0xA5; 0xA5]]))
  /\ read_cust_adj_coeff (mkSerial (0x96 :: 0x96 :: rest) tr)
     = (Raise CommandFailure, mkSerial rest (sent ++ [ERead 2 [0x96; 0x96]])).
Proof.
  intros sent. subst sent. split; [|split; [|split; [|split]]].
  - intros echo c. rewrite (read_cust_adj_coeff_data echo [c] rest tr).
    rewrite from_bytes_big_1. reflexivity.
  - intros echo hi lo. rewrite (read_cust_adj_coeff_data echo [hi; lo] rest tr).
    reflexivity.
  - intros echo. rewrite (read_cust_adj_coeff_data echo [] rest tr). reflexivity.
  - unfold read_cust_adj_coeff, bind. rewrite (_send_command 0x10) by lia.
    simpl. rewrite <- ?app_assoc. reflexivity.
  - unfold read_cust_adj_coeff, bind. rewrite (_send_command 0x10) by lia.
    simpl. rewrite <- ?app_assoc. reflexivity.
Qed.

(** Receiving and failing on a negative acknowledgement, as every command
    method does after its write. *)
Lemma ack_check_effect (s0 : Serial) :
  let m := (rsp <- _recv ;;
            if is_NEGACK (state rsp) then raise CommandFailure else ret tt) in
  writes (since (trace s0) (trace (snd (m s0)))) = []
  /\ (fst (m s0) = Raise CommandFailure
      <-> exists rest, in_waiting s0 = 0x96 :: 0x96 :: rest)
  /\ fst (m s0) <> Raise ValueError.
Proof.
  intros m. subst m. unfold bind.
  destruct (quiet__recv s0) as [(evs & T & W) _].
  pose proof (_recv_raises_only s0) as He.
  destruct (_recv s0) as [[rsp|e] s1] eqn:Hr; cbn [snd fst] in *.
  - split; [|split].
    + assert (Ht : trace (snd ((if is_NEGACK (state rsp)
                                 then raise CommandFailure else ret tt) s1))
                   = trace s1) by (destruct (is_NEGACK (state rsp)); reflexivity).
      rewrite Ht, T, since_app. exact W.
    + split.
      * intros H. destruct (state rsp) eqn:Hs; cbn in H; try discriminate.
        destruct (_recv_negack_inv s0 s1 rsp Hr Hs) as (rest & E & _).
        exists rest. exact E.
      * intros (rest & E). destruct s0 as [inw tr0]. cbn [in_waiting] in E.
        subst inw. cbn in Hr. inversion Hr; subst. reflexivity.
    + destruct (is_NEGACK (state rsp)); cbn; discriminate.
  - split; [|split].
    + rewrite T, since_app. exact W.
    + split.
      * intros H. inversion H; subst. unfold recv_error in He.
        intuition discriminate.
      * intros (rest & E). destruct s0 as [inw tr0]. cbn [in_waiting] in E.
        subst inw. cbn in Hr. discriminate Hr.
    + intros H. inversion H; subst. unfold recv_error in He.
      intuition discriminate.
Qed.

(** X13.  The traffic and the errors of [set_cust_adj_coeff], for every
    argument and every reply: it writes nothing when the argument is
    outside [30, 200] and exactly the frame [68 02 08 coeff cs] otherwise;
    it raises [ValueError] exactly when the argument is out of range, and
    [CommandFailure] exactly when the argument is in range and the reply
    starts with [96 96], in which case the frame has already gone out. *)
Theorem set_cust_adj_coeff_traffic (coeff : Z) (s : Serial) :
  writes (since (trace s) (trace (snd (set_cust_adj_coeff coeff s))))
  = (if (coeff <? 30) || (coeff >? 200) then []
     else [[0x68; 0x02; 0x08; coeff; _checksum [0x68; 0x02; 0x08; coeff]]])
  /\ (fst (set_cust_adj_coeff coeff s) = Raise ValueError
      <-> coeff < 30 \/ coeff > 200)
  /\ (fst (set_cust_adj_coeff coeff s) = Raise CommandFailure
      <-> 30 <= coeff <= 200 /\ exists rest, in_waiting s = 0x96 :: 0x96 :: rest).
Proof.
  destruct ((coeff <? 30) || (coeff >? 200)) eqn:Hr.
  - assert (Hout : coeff < 30 \/ coeff > 200).
    { apply orb_true_iff in Hr. rewrite Z.ltb_lt, Z.gtb_gt in Hr. lia. }
    rewrite (set_cust_adj_coeff_rejects coeff s Hout). cbn [fst snd].
    split; [|split].
    + rewrite <- (app_nil_r (trace s)) at 2. rewrite since_app. reflexivity.
    + tauto.
    + split; [discriminate|]. intros [H _]. lia.
  - assert (Hin : 30 <= coeff <= 200).
    { apply orb_false_iff in Hr. rewrite Z.ltb_ge, Z.gtb_ltb, Z.ltb_ge in Hr. lia. }
    set (frame := [0x68; 0x02; 0x08; coeff; _checksum [0x68; 0x02; 0x08; coeff]]).
    set (s0 := mkSerial (in_waiting s) (trace s ++ [EWrite frame])).
    assert (E : set_cust_adj_coeff coeff s
                = (rsp <- _recv ;;
                   if is_NEGACK (state rsp) then raise CommandFailure else ret tt) s0).
    { unfold set_cust_adj_coeff. rewrite Hr. unfold bytes1.
      replace (is_byte coeff) with true by (symmetry; apply is_byte_iff; lia).
      unfold bind at 1. unfold ret at 1. unfold bind at 1.
      rewrite _send_frame; [|apply is_byte_iff; lia|simpl; lia]. reflexivity. }
    rewrite E. destruct (ack_check_effect s0) as (W & N & V).
    cbv zeta in W, N, V. split; [|split].
    + destruct (quiet__recv s0) as [(evs & T & Wr) _].
      clear W. set (out := (rsp <- _recv ;;
                            if is_NEGACK (state rsp)
                            then raise CommandFailure else ret tt) s0) in *.
      assert (Ht : exists evs', trace (snd out) = trace s0 ++ evs'
                                /\ writes evs' = []).
      { subst out. unfold bind. destruct (_recv s0) as [[rsp|e] s1]; cbn [snd] in *.
        - exists evs. split; [|exact Wr].
          destruct (is_NEGACK (state rsp)); exact T.
        - exists evs. split; [exact T|exact Wr]. }
      destruct Ht as (evs' & T' & W'). rewrite T'. subst s0. cbn [trace].
      rewrite <- app_assoc, since_app. cbn [app writes]. rewrite W'. reflexivity.
    + split; [intros H; contradiction|lia].
    + rewrite N. subst s0. cbn [in_waiting]. tauto.
Qed.

Lemma set_cust_adj_coeff_traffic_witness :
  fst (set_cust_adj_coeff 100 (mkSerial [0x96; 0x96] [])) = Raise CommandFailure.
Proof.
  apply (proj2 (proj2 (set_cust_adj_coeff_traffic 100 (mkSerial [0x96; 0x96] [])))).
  split; [lia|]. exists []. reflexivity.
Defined.

(** ** Streaming *)

Lemma _recv_stream_frame_eq (body rest : list Z) (tr : list event) :
  length body = 28%nat ->
  _recv (mkSerial (stream_frame body ++ rest) tr)
  = (Ok (mkResponse DATA (Some (skipn 2 body))),
     mkSerial rest (tr ++ stream_reads body)).
Proof.
  intros Hlen. unfold stream_frame, stream_reads. cbv zeta.
  set (cs := py_sum (0x42 :: 0x4D :: body) mod 65536).
  pose proof (_recv_stream_family body (cs / 256) (cs mod 256) rest tr Hlen) as H.
  cbn [app] in *. rewrite <- app_assoc. cbn [app]. rewrite H.
  replace (cs / 256 * 256 + cs mod 256) with cs
    by (pose proof (Z.div_mod cs 256 ltac:(lia)); lia).
  fold cs. rewrite Z.eqb_refl. reflexivity.
Qed.

Lemma SampleCls_stream (self : Model) (body : list Z) (s : Serial) :
  length body = 28%nat ->
  struct_unpack 13 (Some (skipn 2 body)) s = (Ok (be16 (skipn 2 body)), s)
  /\ SampleCls self (be16 (skipn 2 body)) s = (Ok (stream_sample self body), s).
Proof.
  intros Hlen.
  do 28 (destruct body as [|? body]; [discriminate Hlen|]).
  destruct body; [|discriminate Hlen].
  split; [reflexivity|]. destruct self; reflexivity.
Qed.

Section StreamingFacts.

Context {A : Type}.
Variable callback : Sample -> A -> bool * A.
Variable self : Model.

(** One pass over a streaming frame that arrived in full. *)
Lemma body_stream_frame (a : A) (body rest : list Z) (tr : list event) :
  length body = 28%nat ->
  autosample_body callback self a (mkSerial (stream_frame body ++ rest) tr)
  = (let (keep, a') := callback (stream_sample self body) a in
     if negb keep
     then (Ok (true, a'),
           mkSerial [] ((tr ++ stream_reads body)
                        ++ [EWrite disable_frame; ESleep 200; EReset]))
     else (Ok (false, a'), mkSerial rest (tr ++ stream_reads body))).
Proof.
  intros Hlen.
  destruct (SampleCls_stream self body (mkSerial rest (tr ++ stream_reads body)) Hlen)
    as [Hu Hs].
  rewrite (body_sample callback self a _ _ _ (be16 (skipn 2 body))
             (stream_sample self body) (_recv_stream_frame_eq body rest tr Hlen)).
  - reflexivity.
  - discriminate.
  - cbn [data]. rewrite Hu. reflexivity.
  - rewrite Hs. reflexivity.
Qed.

End StreamingFacts.

(** The entry of [autosample]: the enabling frame goes out first, then
    only reads follow. *)
Lemma enter_effect (s s0 : Serial) (r : result unit) :
  autosample_enter s = (r, s0) ->
  exists evs,
    trace s0 = trace s ++ EWrite enable_frame :: evs /\ writes evs = [].
Proof.
  unfold autosample_enter. unfold bind at 1.
  rewrite (_send_command 0x40) by lia. cbv beta iota.
  set (s1 := mkSerial (in_waiting s) (trace s ++ [EWrite (command_frame 0x40)])).
  unfold bind. destruct (quiet__recv s1) as [(evs & T & W) _].
  destruct (_recv s1) as [[rsp|e] s2]; cbn [snd] in T.
  - destruct (is_NEGACK (state rsp)); intros H; inversion H; subst;
      exists evs; (split; [|exact W]); rewrite T; subst s1; cbn [trace];
      rewrite <- app_assoc; reflexivity.
  - intros H; inversion H; subst. exists evs. split; [|exact W].
    rewrite T. subst s1. cbn [trace]. rewrite <- app_assoc. reflexivity.
Qed.

(** X14.  [autosample] always comes back, by a return or an exception,
    once the device falls silent, and its writes follow one discipline:
    the enabling frame [68 01 40 57] first, and after it the disabling
    frame [68 01 20 77] exactly when the call returns normally; nothing
    else is ever written. *)
Theorem autosample_ends_and_writes
  {A : Type} (callback : Sample -> A -> bool * A) (self : Model)
  (a : A) (s : Serial) :
  exists (r : result A) (s' : Serial),
    autosample callback self a s = Some (r, s')
    /\ writes (since (trace s) (trace s'))
       = [0x68; 0x01; 0x40; 0x57]
         :: match r with
            | Ok _ => [[0x68; 0x01; 0x20; 0x77]]
            | Raise _ => []
            end.
Proof.
  unfold autosample.
  destruct (autosample_enter s) as [[[]|e] s0] eqn:He;
    destruct (enter_effect s s0 _ He) as (evs0 & T0 & W0).
  - destruct (loop_terminates callback self (S (length (in_waiting s0))) a s0
                ltac:(lia)) as ([r s'] & Hl).
    exists r, s'. split; [exact Hl|].
    destruct (loop_effect callback self _ a s0 s' r Hl) as (evs & T & Hev).
    rewrite T, T0, <- app_assoc, since_app. cbn [app writes].
    rewrite writes_app, W0. cbn [app]. f_equal.
    destruct r as [a'|e'].
    + destruct Hev as (reads & -> & Wr). rewrite writes_app, Wr. reflexivity.
    + exact Hev.
  - exists (Raise e), s0. split; [reflexivity|].
    rewrite T0, since_app. cbn [writes]. rewrite W0. reflexivity.
Qed.

(** X15.  The entry of [autosample] looks at one response only to see
    whether it is a negative acknowledgement.  [96 96] raises
    [CommandFailure] before the loop; anything else is thrown away, a
    streaming frame included: the consumer never sees that first sample,
    the loop starts behind it with the consumer's state untouched, and if
    nothing follows the frame the call ends with [IndexError] whatever the
    consumer would have answered. *)
Theorem autosample_entry_drops_first_response
  {A : Type} (callback : Sample -> A -> bool * A) (self : Model)
  (a : A) (rest : list Z) (tr : list event) :
  autosample callback self a (mkSerial (0x96 :: 0x96 :: rest) tr)
  = Some (Raise CommandFailure,
          mkSerial rest (tr ++ [EWrite enable_frame; ERead 2 [0x96; 0x96]]))
  /\ (forall body : list Z,
        length body = 28%nat ->
        autosample callback self a (mkSerial (stream_frame body ++ rest) tr)
        = autosample_loop callback self (S (length rest)) a
            (mkSerial rest (tr ++ EWrite enable_frame :: stream_reads body))
        /\ autosample callback self a (mkSerial (stream_frame body) tr)
           = Some (Raise IndexError,
                   mkSerial []
                     (tr ++ EWrite enable_frame :: stream_reads body
                         ++ [ERead 2 []]))).
Proof.
  split.
  - unfold autosample, autosample_enter, bind.
    rewrite (_send_command 0x40) by lia. cbn. rewrite <- app_assoc. reflexivity.
  - intros body Hlen.
    assert (He : forall rest0,
               autosample_enter (mkSerial (stream_frame body ++ rest0) tr)
               = (Ok tt,
                  mkSerial rest0 (tr ++ EWrite enable_frame :: stream_reads body))).
    { intros rest0. unfold autosample_enter. unfold bind at 1.
      rewrite (_send_command 0x40) by lia. cbv beta iota. unfold bind.
      cbn [in_waiting trace].
      rewrite (_recv_stream_frame_eq body rest0 _ Hlen). cbn [state is_NEGACK].
      unfold ret. rewrite <- app_assoc. reflexivity. }
    split.
    + unfold autosample. rewrite He. reflexivity.
    + unfold autosample. rewrite <- (app_nil_r (stream_frame body)), He.
      cbn [in_waiting length autosample_loop].
      rewrite (body_recv_raises callback self a _ _ IndexError
                 (_recv_on_silence _)).
      rewrite <- app_assoc. reflexivity.
Qed.

Lemma autosample_entry_drops_first_response_witness :
  autosample (fun (_ : Sample) (x : nat) => (false, S x)) HPMA115S0 0%nat
    (mkSerial (stream_frame (repeat 0 28)) [])
  = Some (Raise IndexError,
          mkSerial []
            ([] ++ EWrite enable_frame :: stream_reads (repeat 0 28)
                ++ [ERead 2 []])).
Proof.
  exact (proj2 (proj2 (autosample_entry_drops_first_response
                         (fun (_ : Sample) (x : nat) => (false, S x))
                         HPMA115S0 0%nat [] [])
                  (repeat 0 28) eq_refl)).
Defined.

Lemma autosample_enter_posack (rest : list Z) (tr : list event) :
  autosample_enter (mkSerial (0xA5 :: 0xA5 :: rest) tr)
  = (Ok tt, mkSerial rest (tr ++ [EWrite enable_frame; ERead 2 [0xA5; 0xA5]])).
Proof.
  unfold autosample_enter, bind. rewrite (_send_command 0x40) by lia.
  cbn. rewrite <- app_assoc. reflexivity.
Qed.

(** X16.  Inside the loop, after any number of delivered samples, three
    kinds of input end [autosample] with an exception that is neither a
    decode failure nor [CommandFailure]: silence raises [IndexError], a
    positive acknowledgement raises [TypeError] (it has no data to
    unpack), and a command-response data frame whose data is not 27 bytes
    long (echo plus 13 fields) raises [struct.error] after it has been
    read in full. *)
Theorem autosample_loop_failures
  {A : Type} (callback : Sample -> A -> bool * A) (self : Model)
  (n : nat) (a an : A) (s s0 sn : Serial) :
  autosample_enter s = (Ok tt, s0) ->
  passes callback self n a s0 = Some (an, sn) ->
  (in_waiting sn = [] ->
   autosample callback self a s
   = Some (Raise IndexError, mkSerial [] (trace sn ++ [ERead 2 []])))
  /\ (forall rest,
        in_waiting sn = 0xA5 :: 0xA5 :: rest ->
        autosample callback self a s
        = Some (Raise TypeError,
                mkSerial rest (trace sn ++ [ERead 2 [0xA5; 0xA5]])))
  /\ (forall reply rest,
        (length reply <= 255)%nat -> length reply <> 27%nat ->
        in_waiting sn = response_frame reply ++ rest ->
        exists s1,
          autosample callback self a s = Some (Raise StructError, s1)
          /\ in_waiting s1 = rest).
Proof.
  intros He Hp. destruct sn as [inw trn]. cbn [in_waiting trace].
  split; [|split].
  - intros ->.
    apply (autosample_ends_at_pass callback self n a an s s0 _ _ He Hp).
    intros fuel. cbn [autosample_loop].
    rewrite (body_recv_raises callback self an _ _ IndexError
               (_recv_on_silence trn)). reflexivity.
  - intros rest ->.
    apply (autosample_ends_at_pass callback self n a an s s0 _ _ He Hp).
    intros fuel. cbn [autosample_loop]. reflexivity.
  - intros reply rest _ Hlen ->.
    eexists. split.
    + apply (autosample_ends_at_pass callback self n a an s s0 _ _ He Hp).
      intros fuel. cbn [autosample_loop].
      unfold autosample_body. unfold bind at 1. unfold response_frame.
      pose proof (_recv_command_family reply
                    (_checksum (0x40 :: Z.of_nat (length reply) :: reply))
                    rest trn) as H.
      cbn [app] in H. cbn [app]. rewrite <- app_assoc. cbn [app].
      rewrite H, Z.eqb_refl. cbn [state is_NEGACK data].
      unfold bind, struct_unpack.
      replace (Nat.eqb (length (skipn 1 reply)) (2 * 13)) with false;
        [reflexivity|].
      symmetry. apply Nat.eqb_neq. rewrite length_skipn.
      change (2 * 13)%nat with 26%nat. destruct reply; simpl in *; lia.
    + reflexivity.
Qed.

Lemma autosample_loop_failures_witness :
  autosample (fun (_ : Sample) (x : nat) => (true, S x)) HPMA115C0 0%nat
    (mkSerial ([0xA5; 0xA5] ++ stream_frame (repeat 1 28)) [])
  = Some (Raise IndexError,
          mkSerial []
            (([] ++ [EWrite enable_frame; ERead 2 [0xA5; 0xA5]])
             ++ stream_reads (repeat 1 28) ++ [ERead 2 []])).
Proof.
  set (cb := fun (_ : Sample) (x : nat) => (true, S x)).
  set (s := mkSerial ([0xA5; 0xA5] ++ stream_frame (repeat 1 28)) []).
  set (s0 := snd (autosample_enter s)).
  set (sn := snd (autosample_body cb HPMA115C0 0%nat s0)).
  exact (proj1 (autosample_loop_failures cb HPMA115C0 1 0%nat 1%nat s s0 sn
                  eq_refl eq_refl) eq_refl).
Defined.

Lemma passes_stream_frames_while
  {A : Type} (callback : Sample -> A -> bool * A) (self : Model)
  (bodies : list (list Z)) (a : A) (rest : list Z) (tr : list event) :
  Forall (fun body => length body = 28%nat) bodies ->
  (forall pre b post,
     bodies = pre ++ b :: post ->
     fst (callback (stream_sample self b)
            (fold_left (shown callback self) pre a)) = true) ->
  passes callback self (length bodies) a
    (mkSerial (concat (map stream_frame bodies) ++ rest) tr)
  = Some (fold_left (shown callback self) bodies a,
          mkSerial rest (tr ++ concat (map stream_reads bodies))).
Proof.
  intros Hb. revert a tr.
  induction Hb as [|body bodies Hlen Hb IH]; intros a tr Hk.
  - cbn. rewrite app_nil_r. reflexivity.
  - cbn [length map concat passes fold_left]. rewrite <- app_assoc.
    rewrite (body_stream_frame callback self a body _ tr Hlen).
    pose proof (Hk [] body bodies eq_refl) as H0. cbn [fold_left] in H0.
    assert (Hstep : shown callback self a body
                    = snd (callback (stream_sample self body) a)) by reflexivity.
    destruct (callback (stream_sample self body) a) as [keep a'] eqn:Ecb.
    cbn [fst snd] in *. subst keep. cbn [negb]. rewrite Hstep.
    rewrite IH, <- app_assoc; [reflexivity|].
    intros pre b post E. subst bodies.
    specialize (Hk (body :: pre) b post eq_refl). cbn [fold_left] in Hk.
    rewrite Hstep in Hk. exact Hk.
Qed.

(** X17.  The consumer is shown every streaming frame that arrives in
    full, in the order of arrival and each exactly once, for as long as it
    answers true; its state threads through the calls.  At the first frame
    for which it answers false the call returns, after the three reads of
    that frame, with the disable sequence, and whatever follows that frame
    is discarded unread.  [HPMA115C0] shows the fields 0 to 3 of the 13,
    [HPMA115S0] the fields 1 and 2. *)
Theorem autosample_delivers_in_order
  {A : Type} (callback : Sample -> A -> bool * A) (self : Model)
  (bodies : list (list Z)) (last : list Z) (a : A)
  (rest : list Z) (tr : list event) :
  Forall (fun body => length body = 28%nat) bodies ->
  length last = 28%nat ->
  (forall pre b post,
     bodies = pre ++ b :: post ->
     fst (callback (stream_sample self b)
            (fold_left (shown callback self) pre a)) = true) ->
  fst (callback (stream_sample self last)
         (fold_left (shown callback self) bodies a)) = false ->
  autosample callback self a
    (mkSerial (0xA5 :: 0xA5 :: concat (map stream_frame (bodies ++ [last])) ++ rest) tr)
  = Some (Ok (fold_left (shown callback self) (bodies ++ [last]) a),
          mkSerial []
            (tr ++ [EWrite enable_frame; ERead 2 [0xA5; 0xA5]]
                ++ concat (map stream_reads (bodies ++ [last]))
                ++ [EWrite disable_frame; ESleep 200; EReset])).
Proof.
  intros Hb Hlast Hk Hstop.
  rewrite !map_app, !concat_app. cbn [map concat]. rewrite !app_nil_r.
  rewrite <- (app_assoc _ (stream_frame last) rest).
  eapply (autosample_ends_at_pass callback self (length bodies) a _ _ _ _ _
            (autosample_enter_posack _ tr)
            (passes_stream_frames_while callback self bodies a _ _ Hb Hk)).
  intros fuel. cbn [autosample_loop].
  rewrite (body_stream_frame callback self _ last rest _ Hlast).
  rewrite fold_left_app. cbn [fold_left].
  assert (Hstep : shown callback self (fold_left (shown callback self) bodies a) last
                  = snd (callback (stream_sample self last)
                           (fold_left (shown callback self) bodies a)))
    by reflexivity.
  destruct (callback (stream_sample self last)
              (fold_left (shown callback self) bodies a)) as [keep a'].
  cbn [fst snd] in *. subst keep. cbn [negb]. rewrite Hstep.
  rewrite <- !app_assoc. reflexivity.
Qed.

Lemma autosample_delivers_in_order_witness :
  let cb := fun (smp : Sample) (seen : list Sample) =>
              (Nat.ltb (length seen) 1, seen ++ [smp]) in
  let b1 := 0 :: 28 :: [0; 1; 0; 2; 0; 3; 0; 4] ++ repeat 0 18 in
  let b2 := 0 :: 28 :: [0; 5; 0; 6; 0; 7; 0; 8] ++ repeat 0 18 in
  autosample cb HPMA115C0 []
    (mkSerial (0xA5 :: 0xA5 :: concat (map stream_frame ([b1] ++ [b2])) ++ [0x42]) [])
  = Some (Ok [OfC0 (SampleC0.mk 1 2 3 4); OfC0 (SampleC0.mk 5 6 7 8)],
          mkSerial []
            ([] ++ [EWrite enable_frame; ERead 2 [0xA5; 0xA5]]
                ++ concat (map stream_reads ([b1] ++ [b2]))
                ++ [EWrite disable_frame; ESleep 200; EReset])).
Proof.
  intros cb b1 b2.
  refine (autosample_delivers_in_order cb HPMA115C0 [b1] b2 [] [0x42] []
            _ eq_refl _ eq_refl).
  - constructor; [reflexivity|constructor].
  - intros [|p pre] b post E.
    + inversion E; subst. reflexivity.
    + destruct pre; discriminate E.
Defined.

(** ** Edge cases of the header and of the samples *)

(** X18.  A lone byte before the line falls silent: if it is one of the
    four first bytes [_recv] knows ([40], [42], [A5], [96]), looking at the
    missing second byte raises [IndexError] and nothing is reset; any
    other byte is reported as [SerialDataMalformed] after a reset.  The
    byte [40] fails before anything further is read. *)
Theorem recv_lone_byte (h0 : Z) (tr : list event) :
  _recv (mkSerial [h0] tr)
  = if (h0 =? 0x40) || (h0 =? 0x42) || (h0 =? 0xA5) || (h0 =? 0x96)
    then (Raise IndexError, mkSerial [] (tr ++ [ERead 2 [h0]]))
    else (Raise SerialDataMalformed, mkSerial [] (tr ++ [ERead 2 [h0]; EReset])).
Proof.
  unfold _recv, bind, ser_read, index, ret, raise, reset_input_buffer. simpl.
  destruct (h0 =? 64); [reflexivity|].
  destruct (h0 =? 66); simpl; [reflexivity|].
  destruct (h0 =? 165); simpl; [reflexivity|].
  destruct (h0 =? 150); simpl; [reflexivity|].
  rewrite <- app_assoc. reflexivity.
Qed.

(** X19.  [SampleS0.__init__] never raises and sets its attributes both or
    not at all: both when it is given 2 or 13 fields, neither for any
    other number of fields, in which case the object comes back without
    [PM2_5] and [PM10]. *)
Theorem SampleS0_init_by_arity (fields : list Z) (s : Serial) :
  exists smp : SampleS0.t,
    SampleS0.init fields s = (Ok smp, s)
    /\ (length fields = 2%nat \/ length fields = 13%nat ->
        SampleS0.PM2_5 smp <> None /\ SampleS0.PM10 smp <> None)
    /\ (length fields <> 2%nat -> length fields <> 13%nat ->
        smp = SampleS0.mk None None).
Proof.
  unfold SampleS0.init.
  destruct (Nat.eqb (length fields) 2) eqn:E2.
  - apply Nat.eqb_eq in E2.
    destruct fields as [|x [|y [|z fields]]]; try discriminate E2.
    eexists. split; [reflexivity|]. split.
    + intros _. split; discriminate.
    + intros H. contradiction.
  - apply Nat.eqb_neq in E2. destruct (Nat.eqb (length fields) 13) eqn:E13.
    + apply Nat.eqb_eq in E13.
      destruct fields as [|x [|y [|z fields]]]; try discriminate E13.
      eexists. split; [reflexivity|]. split.
      * intros _. split; discriminate.
      * intros _ H. contradiction.
    + apply Nat.eqb_neq in E13. eexists. split; [reflexivity|]. split.
      * intros [H|H]; contradiction.
      * intros _ _. reflexivity.
Qed.

Lemma SampleS0_init_by_arity_witness :
  exists smp : SampleS0.t,
    SampleS0.init [1; 2; 3; 4; 5; 6] (mkSerial [] []) = (Ok smp, mkSerial [] [])
    /\ smp = SampleS0.mk None None.
Proof.
  destruct (SampleS0_init_by_arity [1; 2; 3; 4; 5; 6] (mkSerial [] []))
    as (smp & E & _ & H).
  exists smp. split; [exact E|]. apply H; simpl; lia.
Defined.

Lemma SampleS0_init_returns (fields : list Z) (s : Serial) :
  exists smp : SampleS0.t, SampleS0.init fields s = (Ok smp, s).
Proof.
  unfold SampleS0.init.
  destruct (Nat.eqb (length fields) 2) eqn:E2.
  - apply Nat.eqb_eq in E2.
    destruct fields as [|x [|y fields]]; try discriminate E2.
    eexists. reflexivity.
  - destruct (Nat.eqb (length fields) 13) eqn:E13.
    + apply Nat.eqb_eq in E13.
      destruct fields as [|x [|y [|z fields]]]; try discriminate E13.
      eexists. reflexivity.
    + eexists. reflexivity.
Qed.

(** X20.  Whatever the device sends, [sample] on the S0 driver never hands
    back a sample with a value in it: if it returns at all, neither
    [PM2_5] nor [PM10] is set.  When it raises, the exception is never
    [ValueError]. *)
Theorem sample_S0_outcomes (s : Serial) :
  match fst (sample HPMA115S0 s) with
  | Ok smp => smp = OfS0 (SampleS0.mk None None)
  | Raise e => e <> ValueError
  end.
Proof.
  destruct (sample HPMA115S0 s) as [[smp|e] s'] eqn:E; cbn [fst].
  - exact (sample_S0_never_populated s s' smp E).
  - revert E. unfold sample. unfold bind at 1.
    rewrite (_send_command 0x04) by lia. cbv beta iota.
    set (s0 := mkSerial (in_waiting s) (trace s ++ [EWrite (command_frame 0x04)])).
    unfold bind at 1.
    pose proof (_recv_raises_only s0) as Hr.
    destruct (_recv s0) as [[rsp|e0] s1]; cbn [fst] in Hr.
    + destruct (is_NEGACK (state rsp)).
      * intros H. inversion H. discriminate.
      * unfold bind, struct_unpack. destruct (data rsp) as [b|].
        -- destruct (Nat.eqb (length b) (2 * 6)).
           ++ unfold ret.
              pose proof (SampleS0_init_returns (be16 b) s1) as (smp & Hi).
              unfold SampleCls, bind. rewrite Hi. discriminate.
           ++ intros H. inversion H. discriminate.
        -- intros H. inversion H. discriminate.
    + intros H. inversion H; subst. unfold recv_error in Hr.
      destruct Hr as [->|[->|[->| ->]]]; discriminate.
Qed.
